(** * eldlogs: the rendering core of [src/App.tsx]

    A shallow embedding of the two canvas renderers of the ELD trip planner
    ([MapView], [ELDLogSheet]) and of [getUniqueDates], with the properties
    the specification states about them.

    Numbers.  A JavaScript number is modelled by [num]: an exact rational,
    or one of NaN, +Infinity, -Infinity.  Rounding of IEEE doubles, overflow
    to infinity and the sign of zero are not modelled; everything else the
    code can observe of a number (NaN propagation, truthiness, comparisons
    with NaN, division by zero) is.

    Canvas.  The 2D context is modelled by its drawing state (the five
    properties the code assigns and the current path) and the bitmap by the
    sequence of primitives painted since the bitmap was last blank.  Equal
    sequences over a canvas of equal size rasterise to equal pixels.  *)

From Stdlib Require Import List String Ascii Bool ZArith QArith Lia Lqa.
From Stdlib Require Import Sorted Permutation DecimalString OrderedTypeEx RelationClasses.
Import ListNotations.

Local Open Scope Q_scope.

(** ** Numbers *)

Module Num.

Inductive num : Type :=
| Fin (q : Q)
| NaN
| PInf
| NInf.

Definition of_Z (z : Z) : num := Fin (inject_Z z).

Definition isFinite (a : num) : bool :=
  match a with Fin _ => true | _ => false end.

(** ToBoolean: zero and NaN are falsy, every other number is truthy. *)
Definition truthy (a : num) : bool :=
  match a with
  | Fin q => negb (Qeq_bool q 0)
  | NaN => false
  | PInf | NInf => true
  end.

Definition add (a b : num) : num :=
  match a, b with
  | NaN, _ | _, NaN => NaN
  | Fin x, Fin y => Fin (x + y)
  | PInf, NInf | NInf, PInf => NaN
  | PInf, _ | _, PInf => PInf
  | NInf, _ | _, NInf => NInf
  end.

Definition sub (a b : num) : num :=
  match a, b with
  | NaN, _ | _, NaN => NaN
  | Fin x, Fin y => Fin (x - y)
  | PInf, PInf | NInf, NInf => NaN
  | PInf, _ | _, NInf => PInf
  | NInf, _ | _, PInf => NInf
  end.

(** sign of a rational: [Gt] positive, [Eq] zero, [Lt] negative *)
Definition sgn (q : Q) : comparison := q ?= 0.

Definition inf_of (s : comparison) : num :=
  match s with Gt => PInf | Lt => NInf | Eq => NaN end.

Definition flip (s : comparison) : comparison := CompOpp s.

Definition mul (a b : num) : num :=
  match a, b with
  | NaN, _ | _, NaN => NaN
  | Fin x, Fin y => Fin (x * y)
  | PInf, Fin y | Fin y, PInf => inf_of (sgn y)
  | NInf, Fin y | Fin y, NInf => inf_of (flip (sgn y))
  | PInf, PInf | NInf, NInf => PInf
  | PInf, NInf | NInf, PInf => NInf
  end.

Definition div (a b : num) : num :=
  match a, b with
  | NaN, _ | _, NaN => NaN
  | Fin x, Fin y => if Qeq_bool y 0 then inf_of (sgn x) else Fin (x / y)
  | Fin _, PInf | Fin _, NInf => Fin 0
  | PInf, Fin y => match sgn y with Lt => NInf | _ => PInf end
  | NInf, Fin y => match sgn y with Lt => PInf | _ => NInf end
  | _, _ => NaN
  end.

(** [a < b]; false as soon as one side is NaN *)
Definition lt (a b : num) : bool :=
  match a, b with
  | NaN, _ | _, NaN => false
  | Fin x, Fin y => match x ?= y with Lt => true | _ => false end
  | NInf, NInf | PInf, _ => false
  | NInf, _ => true
  | Fin _, PInf => true
  | Fin _, NInf => false
  end.

Definition gt (a b : num) : bool := lt b a.

(** [a || b] on numbers *)
Definition or_else (a b : num) : num := if truthy a then a else b.

(** [Math.min(...l)]: +Infinity without arguments, NaN as soon as one
    argument is NaN, the least argument otherwise. *)
Fixpoint math_min_from (lowest : num) (l : list num) : num :=
  match l with
  | [] => lowest
  | NaN :: _ => NaN
  | x :: l' => math_min_from (if lt x lowest then x else lowest) l'
  end.

Definition math_min (l : list num) : num := math_min_from PInf l.

Fixpoint math_max_from (highest : num) (l : list num) : num :=
  match l with
  | [] => highest
  | NaN :: _ => NaN
  | x :: l' => math_max_from (if gt x highest then x else highest) l'
  end.

Definition math_max (l : list num) : num := math_max_from NInf l.

End Num.

Export Num.

Declare Scope num_scope.
Delimit Scope num_scope with num.
Bind Scope num_scope with num.
Infix "+" := add : num_scope.
Infix "-" := sub : num_scope.
Infix "*" := mul : num_scope.
Infix "/" := div : num_scope.

(** ** Strings: the built-ins the renderers call *)

Module JsString.

Local Open Scope char_scope.

Definition is_digit (c : ascii) : bool :=
  (48 <=? nat_of_ascii c)%nat && (nat_of_ascii c <=? 57)%nat.

Definition digit_val (c : ascii) : Z := Z.of_nat (nat_of_ascii c - 48).

(** white space and line terminators that fit in one byte *)
Definition is_space (c : ascii) : bool :=
  let n := nat_of_ascii c in
  ((9 <=? n)%nat && (n <=? 13)%nat) || (n =? 32)%nat.

Fixpoint trim_start (s : string) : string :=
  match s with
  | String c r => if is_space c then trim_start r else s
  | EmptyString => s
  end.

(** the longest run of decimal digits at the head of [s], and what follows *)
Fixpoint take_digits (s : string) : list Z * string :=
  match s with
  | String c r =>
      if is_digit c
      then let '(ds, rest) := take_digits r in (digit_val c :: ds, rest)
      else ([], s)
  | EmptyString => ([], s)
  end.

Definition digits_value (ds : list Z) : Z :=
  fold_left (fun acc d => (10 * acc + d)%Z) ds 0%Z.

(** ExponentPart, when one is there and well formed; 0 otherwise *)
Definition exponent (s : string) : Z :=
  match s with
  | String c r =>
      if Ascii.eqb c "e" || Ascii.eqb c "E" then
        let '(sg, r') :=
          match r with
          | String "+" r' => (1%Z, r')
          | String "-" r' => ((-1)%Z, r')
          | _ => (1%Z, r)
          end in
        match take_digits r' with
        | ([], _) => 0%Z
        | (ds, _) => (sg * digits_value ds)%Z
        end
      else 0%Z
  | EmptyString => 0%Z
  end.

(** [parseFloat]: skips leading white space, reads the longest prefix that
    is a StrDecimalLiteral, and yields NaN when there is none. *)
Definition parseFloat (s : string) : num :=
  let s1 := trim_start s in
  let '(negative, s2) :=
    match s1 with
    | String "+" r => (false, r)
    | String "-" r => (true, r)
    | _ => (false, s1)
    end in
  if String.prefix "Infinity" s2 then (if negative then NInf else PInf)
  else
    let '(ip, s3) := take_digits s2 in
    let '(fp, s4) :=
      match s3 with
      | String "." r => take_digits r
      | _ => ([], s3)
      end in
    match ip, fp with
    | [], [] => NaN
    | _, _ =>
        let mant :=
          (inject_Z (digits_value ip)
           + inject_Z (digits_value fp) / Qpower 10 (Z.of_nat (List.length fp)))%Q in
        let v := (mant * Qpower 10 (exponent s4))%Q in
        Fin (Qred (if negative then - v else v))
    end.

(** [s.split(c)] for a one-character separator: never empty *)
Fixpoint split (c : ascii) (s : string) : list string :=
  match s with
  | EmptyString => [EmptyString]
  | String a r =>
      if Ascii.eqb a c then EmptyString :: split c r
      else match split c r with
           | h :: t => String a h :: t
           | [] => [String a EmptyString]
           end
  end.

(** [a[i]] is [undefined] out of range; ToString(undefined) is the string
    that [parseFloat] then receives *)
Definition index (a : list string) (i : nat) : option string := nth_error a i.

Definition to_string (v : option string) : string :=
  match v with Some s => s | None => "undefined"%string end.

(** [n.toString().padStart(2, '0')] for a natural number *)
Definition nat_to_string (n : nat) : string :=
  NilZero.string_of_uint (Nat.to_uint n).

Definition padStart2 (s : string) : string :=
  match String.length s with
  | O => "00"%string
  | S O => String "0" s
  | _ => s
  end.

End JsString.

Export JsString.


(** ** Data model: the interfaces of [App.tsx]

    Only the fields the renderers read are kept; the remaining fields of
    the TypeScript interfaces (timestamps, foreign keys, addresses) are
    never read by the code embedded here. *)

Record LocationCoordinate : Type := mkLocation {
  lat : num;
  lng : num
}.

Record DriverInfo : Type := mkDriverInfo {
  full_name : string;
  license_number : string
}.

Record RestStop : Type := mkRestStop {
  stop_id : Z;
  location : LocationCoordinate
}.

Inductive duty_status_t : Type := on_duty | driving | off_duty | sleeper_berth.

Record ELDLog : Type := mkELDLog {
  log_id : Z;
  log_date : string;
  duty_status : duty_status_t;
  start_time : string;
  end_time : string;
  duration_hours : num;
  remarks : string
}.

Record TripResponse : Type := mkTrip {
  id : Z;
  driver_info : DriverInfo;
  current_location : LocationCoordinate;
  pickup_location : LocationCoordinate;
  dropoff_location : LocationCoordinate;
  route_coordinates : list (num * num);
  rest_stops : list RestStop;
  eld_logs : list ELDLog
}.

(** the string a [duty_status] value is at run time *)
Definition status_name (s : duty_status_t) : string :=
  match s with
  | on_duty => "on_duty"
  | driving => "driving"
  | off_duty => "off_duty"
  | sleeper_berth => "sleeper_berth"
  end.

Definition duty_status_eqb (a b : duty_status_t) : bool :=
  match a, b with
  | on_duty, on_duty | driving, driving
  | off_duty, off_duty | sleeper_berth, sleeper_berth => true
  | _, _ => false
  end.

(** ** Text handed to [fillText]

    A template literal is kept as its pieces.  [toLocaleTimeString],
    [toLocaleDateString], [toFixed] and the conversion of a number to a
    string are the host's: they are total (an invalid date prints as
    Invalid Date, NaN as NaN) and are kept symbolic. *)

Inductive piece : Type :=
| Lit (s : string)
| NumStr (n : num)
| Fixed1 (n : num)
| LocaleTime (s : string)
| LocaleDate (s : string).

Definition text : Type := list piece.

Definition formatTime (timeString : string) : piece := LocaleTime timeString.

Definition formatDate (dateString : string) : piece := LocaleDate dateString.

Definition getDutyStatusColor (status : string) : string :=
  if String.eqb status "driving" then "#ef4444"
  else if String.eqb status "on_duty" then "#f59e0b"
  else if String.eqb status "off_duty" then "#10b981"
  else if String.eqb status "sleeper_berth" then "#3b82f6"
  else "#6b7280".

(** [a || b] on strings: the empty string is falsy *)
Definition str_or (a b : string) : string :=
  match a with EmptyString => b | _ => a end.

Definition str_truthy (a : string) : bool :=
  match a with EmptyString => false | _ => true end.

(** ** The canvas *)

Module Canvas.

(** an angle is a number of radians or a multiple of [Math.PI] *)
Inductive angle : Type :=
| Rad (q : Q)
| PiTimes (q : Q).

Inductive elem : Type :=
| Pt (x y : Q)
| Arc (x y r : Q) (a0 a1 : angle).

Definition subpath : Type := list elem.
Definition path_t : Type := list subpath.

Inductive prim : Type :=
| ClearRect (x y w h : Q)
| FillRect (style : string) (x y w h : Q)
| FillText (style fnt align : string) (t : text) (x y : Q)
| Stroke (style : string) (width : Q) (p : path_t)
| Fill (style : string) (p : path_t).

Record ctx2d : Type := mkCtx {
  fillStyle : string;
  strokeStyle : string;
  lineWidth : Q;
  font : string;
  textAlign : string;
  path : path_t
}.

Record canvas : Type := mkCanvas {
  width : Z;
  height : Z;
  ctx : ctx2d;
  bitmap : list prim
}.

Definition default_ctx : ctx2d :=
  mkCtx "#000000" "#000000" 1 "10px sans-serif" "start" [].

Definition blank (w h : Z) : canvas := mkCanvas w h default_ctx [].

Definition cmd : Type := canvas -> canvas.

Definition with_ctx (f : ctx2d -> ctx2d) : cmd :=
  fun c => let '(mkCanvas w h k bm) := c in mkCanvas w h (f k) bm.

Definition paint (p : prim) : cmd :=
  fun c => let '(mkCanvas w h k bm) := c in mkCanvas w h k (bm ++ [p]).

(** a command that reads the size of the canvas *)
Definition with_size (body : Z -> Z -> cmd) : cmd :=
  fun c => let '(mkCanvas w h k bm) := c in body w h (mkCanvas w h k bm).

(** assigning [canvas.width] or [canvas.height] blanks the bitmap and
    resets the context to its defaults *)
Definition set_width (w : Z) : cmd :=
  fun c => let '(mkCanvas _ h _ _) := c in blank w h.

Definition set_height (h : Z) : cmd :=
  fun c => let '(mkCanvas w _ _ _) := c in blank w h.

Definition set_fillStyle (s : string) : cmd :=
  with_ctx (fun k => let '(mkCtx _ ss lw fn ta p) := k in mkCtx s ss lw fn ta p).

Definition set_strokeStyle (s : string) : cmd :=
  with_ctx (fun k => let '(mkCtx fs _ lw fn ta p) := k in mkCtx fs s lw fn ta p).

(** zero, negative and non-finite widths are ignored *)
Definition set_lineWidth (w : num) : cmd :=
  match w with
  | Fin q =>
      if Qle_bool q 0 then (fun c => c)
      else with_ctx (fun k => let '(mkCtx fs ss _ fn ta p) := k in mkCtx fs ss q fn ta p)
  | _ => fun c => c
  end.

Definition set_font (s : string) : cmd :=
  with_ctx (fun k => let '(mkCtx fs ss lw _ ta p) := k in mkCtx fs ss lw s ta p).

Definition set_textAlign (s : string) : cmd :=
  with_ctx (fun k => let '(mkCtx fs ss lw fn _ p) := k in mkCtx fs ss lw fn s p).

Definition update_path (f : path_t -> path_t) : cmd :=
  with_ctx (fun k => let '(mkCtx fs ss lw fn ta p) := k in mkCtx fs ss lw fn ta (f p)).

(** does the rectangle cover a bitmap of [cw] by [ch] pixels? *)
Definition covers (x y w h : Q) (cw ch : Z) : bool :=
  Qle_bool x 0 && Qle_bool y 0
  && Qle_bool (inject_Z cw) (x + w) && Qle_bool (inject_Z ch) (y + h).

(** Every drawing method returns without doing anything when one of its
    arguments is NaN or infinite. *)
Definition clearRect (x y w h : num) : cmd :=
  match x, y, w, h with
  | Fin x, Fin y, Fin w, Fin h =>
      fun c =>
        let '(mkCanvas cw ch k bm) := c in
        if Qeq_bool w 0 || Qeq_bool h 0 then mkCanvas cw ch k bm
        else if covers x y w h cw ch
             then mkCanvas cw ch k []
             else mkCanvas cw ch k (bm ++ [ClearRect x y w h])
  | _, _, _, _ => fun c => c
  end.

Definition fillRect (x y w h : num) : cmd :=
  match x, y, w, h with
  | Fin x, Fin y, Fin w, Fin h =>
      fun c =>
        let '(mkCanvas cw ch k bm) := c in
        if Qeq_bool w 0 || Qeq_bool h 0 then mkCanvas cw ch k bm
        else mkCanvas cw ch k (bm ++ [FillRect (fillStyle k) x y w h])
  | _, _, _, _ => fun c => c
  end.

Definition fillText (t : text) (x y : num) : cmd :=
  match x, y with
  | Fin x, Fin y =>
      fun c =>
        let '(mkCanvas cw ch k bm) := c in
        let '(mkCtx fs ss lw fn ta p) := k in
        mkCanvas cw ch (mkCtx fs ss lw fn ta p) (bm ++ [FillText fs fn ta t x y])
  | _, _ => fun c => c
  end.

Definition beginPath : cmd := update_path (fun _ => []).

Definition moveTo (x y : num) : cmd :=
  match x, y with
  | Fin x, Fin y => update_path (fun p => p ++ [[Pt x y]])
  | _, _ => fun c => c
  end.

(** append an element to the last subpath; a path without subpaths gets
    one that starts there *)
Fixpoint extend (p : path_t) (e : elem) : path_t :=
  match p with
  | [] => [[e]]
  | [sp] => [sp ++ [e]]
  | sp :: p' => sp :: extend p' e
  end.

Definition lineTo (x y : num) : cmd :=
  match x, y with
  | Fin x, Fin y => update_path (fun p => extend p (Pt x y))
  | _, _ => fun c => c
  end.

(** callers pass a non-negative radius (a negative one raises) *)
Definition arc (x y : num) (r : Q) (a0 a1 : angle) : cmd :=
  match x, y with
  | Fin x, Fin y => update_path (fun p => extend p (Arc x y r a0 a1))
  | _, _ => fun c => c
  end.

(** a subpath of a single point has no line: tracing drops it *)
Definition has_line (sp : subpath) : bool :=
  match sp with
  | [] | [Pt _ _] => false
  | _ => true
  end.

Definition traced (p : path_t) : path_t := filter has_line p.

Definition stroke : cmd :=
  fun c =>
    let '(mkCanvas cw ch k bm) := c in
    let '(mkCtx fs ss lw fn ta p) := k in
    match traced p with
    | [] => mkCanvas cw ch (mkCtx fs ss lw fn ta p) bm
    | tp => mkCanvas cw ch (mkCtx fs ss lw fn ta p) (bm ++ [Stroke ss lw tp])
    end.

Definition fill : cmd :=
  fun c =>
    let '(mkCanvas cw ch k bm) := c in
    let '(mkCtx fs ss lw fn ta p) := k in
    match traced p with
    | [] => mkCanvas cw ch (mkCtx fs ss lw fn ta p) bm
    | tp => mkCanvas cw ch (mkCtx fs ss lw fn ta p) (bm ++ [Fill fs tp])
    end.

(** statements in sequence, and the two loop forms of the code *)
Definition run (body : list cmd) : cmd :=
  fun c => fold_left (fun c k => k c) body c.

Definition forEach {A : Type} (l : list A) (body : A -> cmd) : cmd :=
  fun c => fold_left (fun c x => body x c) l c.

Fixpoint forEach_from {A : Type} (i : nat) (l : list A) (body : A -> nat -> cmd) : cmd :=
  match l with
  | [] => fun c => c
  | x :: l' => fun c => forEach_from (S i) l' body (body x i c)
  end.

Definition forEachi {A : Type} (l : list A) (body : A -> nat -> cmd) : cmd :=
  forEach_from 0 l body.

End Canvas.

Export Canvas.

Local Open Scope num_scope.

Definition of_nat (n : nat) : num := of_Z (Z.of_nat n).

(** ** [MapView]: the route map *)

Module MapView.

Definition canvas_width : Z := 600.
Definition canvas_height : Z := 400.

Definition padding : num := Fin 40.

(** what the closure [toCanvas] captures *)
Record projection : Type := mkProjection {
  minLat : num;
  maxLat : num;
  minLng : num;
  maxLng : num;
  latRange : num;
  lngRange : num;
  surface_width : num;
  surface_height : num
}.

Definition find_bounds (route_coordinates : list (num * num)) (W H : num) : projection :=
  let lats := map fst route_coordinates in
  let lngs := map snd route_coordinates in
  let minLat := math_min lats in
  let maxLat := math_max lats in
  let minLng := math_min lngs in
  let maxLng := math_max lngs in
  let latRange := or_else (maxLat - minLat) (Fin 1) in
  let lngRange := or_else (maxLng - minLng) (Fin 1) in
  mkProjection minLat maxLat minLng maxLng latRange lngRange W H.

Definition toCanvas (p : projection) (lat lng : num) : num * num :=
  let x := padding + ((lng - minLng p) / lngRange p) * (surface_width p - Fin 2 * padding) in
  let y := padding + ((maxLat p - lat) / latRange p) * (surface_height p - Fin 2 * padding) in
  (x, y).

Definition drawMarker (p : projection) (lat lng : num) (color : string) (label : text) : cmd :=
  let '(x, y) := toCanvas p lat lng in
  run [ set_fillStyle color;
        beginPath;
        arc x y 8 (Rad 0) (PiTimes 2);
        fill;
        set_fillStyle "white";
        beginPath;
        arc x y 4 (Rad 0) (PiTimes 2);
        fill;
        set_fillStyle "#1f2937";
        set_font "bold 12px sans-serif";
        set_textAlign "center";
        fillText label x (y - Fin 15) ].

Definition placeholder (W H : num) : cmd :=
  run [ set_fillStyle "#64748b";
        set_font "16px sans-serif";
        set_textAlign "center";
        fillText [Lit "Calculate trip to see route visualization"] (W / Fin 2) (H / Fin 2) ].

Definition draw_rest_stop (p : projection) (stop : RestStop) (index : nat) : cmd :=
  if truthy (lat (location stop)) && truthy (lng (location stop))
  then drawMarker p (lat (location stop)) (lng (location stop)) "#8b5cf6"
         [Lit "S"; NumStr (of_nat index + Fin 1)]
  else fun c => c.

Definition draw_route (tripData : TripResponse) (W H : num) : cmd :=
  match route_coordinates tripData with
  | [] => placeholder W H
  | first :: rest =>
      let p := find_bounds (route_coordinates tripData) W H in
      run [ set_strokeStyle "#3b82f6";
            set_lineWidth (Fin 3);
            beginPath;
            (let '(startX, startY) := toCanvas p (fst first) (snd first) in
             moveTo startX startY);
            forEach rest (fun c => let '(x, y) := toCanvas p (fst c) (snd c) in lineTo x y);
            stroke;
            drawMarker p (lat (current_location tripData)) (lng (current_location tripData))
              "#10b981" [Lit "Current"];
            drawMarker p (lat (pickup_location tripData)) (lng (pickup_location tripData))
              "#f59e0b" [Lit "Pickup"];
            drawMarker p (lat (dropoff_location tripData)) (lng (dropoff_location tripData))
              "#ef4444" [Lit "Dropoff"];
            forEachi (rest_stops tripData) (draw_rest_stop p) ]
  end.

(** the body of the effect, once the canvas and its context are there *)
Definition render (tripData : option TripResponse) : cmd :=
  with_size (fun width height =>
    let W := of_Z width in
    let H := of_Z height in
    run [ clearRect (Fin 0) (Fin 0) W H;
          set_fillStyle "#f8fafc";
          fillRect (Fin 0) (Fin 0) W H;
          match tripData with
          | None => placeholder W H
          | Some t => draw_route t W H
          end ]).

(** the effect: nothing happens without a canvas *)
Definition effect (tripData : option TripResponse) (canvasRef : option canvas) : option canvas :=
  match canvasRef with
  | None => None
  | Some c => Some (render tripData c)
  end.

End MapView.

(** ** [ELDLogSheet]: one daily log sheet *)

Module ELDLogSheet.

(** [const dailyLogs = tripData.eld_logs] *)
Definition dailyLogs (tripData : TripResponse) (logDate : string) : list ELDLog :=
  eld_logs tripData.

Definition gridY : num := Fin 110.
Definition gridHeight : num := Fin 300.
Definition gridWidth : num := Fin 700.
Definition startX : num := Fin 50.

Definition statusLabels : list string :=
  ["Off Duty"; "Sleeper Berth"; "Driving"; "On Duty (Not Driving)"]%string.

(** [parseFloat(t.split(':')[0]) + parseFloat(t.split(':')[1]) / 60] *)
Definition fractional_hour (t : string) : num :=
  parseFloat (to_string (index (split ":" t) 0))
  + parseFloat (to_string (index (split ":" t) 1)) / Fin 60.

Definition statusRow (s : duty_status_t) : num :=
  match s with
  | off_duty => Fin 0
  | sleeper_berth => Fin 1
  | driving => Fin 2
  | on_duty => Fin 3
  end.

Definition row_y (s : duty_status_t) : num :=
  gridY + (statusRow s * gridHeight / Fin 4) + (gridHeight / Fin 8).

Definition hour_x (h : num) : num := startX + (h / Fin 24) * gridWidth.

(** the body of the first [dailyLogs.forEach] *)
Definition draw_log (log : ELDLog) : cmd :=
  let startHour := fractional_hour (start_time log) in
  let endHour := fractional_hour (end_time log) in
  let y := row_y (duty_status log) in
  let startX_line := hour_x startHour in
  let endX_line := hour_x endHour in
  run [ set_strokeStyle (getDutyStatusColor (status_name (duty_status log)));
        set_lineWidth (Fin 3);
        beginPath;
        moveTo startX_line y;
        lineTo endX_line y;
        stroke;
        set_fillStyle "#000";
        set_font "8px Arial";
        set_textAlign "center";
        fillText [formatTime (start_time log)] startX_line (y - Fin 5);
        if gt (endX_line - startX_line) (Fin 30)
        then fillText [formatTime (end_time log)] endX_line (y - Fin 5)
        else fun c => c ].

Record totals_t : Type := mkTotals {
  total_off_duty : num;
  total_sleeper_berth : num;
  total_driving : num;
  total_on_duty : num
}.

(** [totals[log.duty_status] += log.duration_hours] *)
Definition add_to_totals (totals : totals_t) (log : ELDLog) : totals_t :=
  let d := duration_hours log in
  match duty_status log with
  | off_duty =>
      mkTotals (total_off_duty totals + d) (total_sleeper_berth totals)
        (total_driving totals) (total_on_duty totals)
  | sleeper_berth =>
      mkTotals (total_off_duty totals) (total_sleeper_berth totals + d)
        (total_driving totals) (total_on_duty totals)
  | driving =>
      mkTotals (total_off_duty totals) (total_sleeper_berth totals)
        (total_driving totals + d) (total_on_duty totals)
  | on_duty =>
      mkTotals (total_off_duty totals) (total_sleeper_berth totals)
        (total_driving totals) (total_on_duty totals + d)
  end.

Definition compute_totals (logs : list ELDLog) : totals_t :=
  fold_left add_to_totals logs (mkTotals (Fin 0) (Fin 0) (Fin 0) (Fin 0)).

Definition get_total (totals : totals_t) (s : duty_status_t) : num :=
  match s with
  | off_duty => total_off_duty totals
  | sleeper_berth => total_sleeper_berth totals
  | driving => total_driving totals
  | on_duty => total_on_duty totals
  end.

(** the remarks loop threads [remarkY] along with the canvas *)
Definition draw_remark (st : canvas * num) (log : ELDLog) : canvas * num :=
  let '(c, remarkY) := st in
  let '(mkCanvas width height k bm) := c in
  if str_truthy (remarks log) && lt remarkY (of_Z height - Fin 30)
  then (run [ set_font "10px Arial";
              fillText [formatTime (start_time log); Lit ": "; Lit (remarks log)]
                (Fin 50) remarkY ] (mkCanvas width height k bm),
        remarkY + Fin 15)
  else (mkCanvas width height k bm, remarkY).

Definition draw_remarks (logs : list ELDLog) (remarkY : num) : cmd :=
  fun c => fst (fold_left draw_remark logs (c, remarkY)).

Definition draw_header (tripData : TripResponse) (logDate : string) : cmd :=
  with_size (fun width height =>
    run [ set_strokeStyle "#000";
          set_fillStyle "#000";
          set_lineWidth (Fin 1);
          set_font "bold 16px Arial";
          set_textAlign "center";
          fillText [Lit "ELECTRONIC LOGGING DEVICE (ELD) DAILY LOG"]
            (of_Z width / Fin 2) (Fin 30);
          set_font "12px Arial";
          set_textAlign "left";
          fillText [Lit "Driver: "; Lit (str_or (full_name (driver_info tripData)) "N/A")]
            (Fin 50) (Fin 60);
          fillText [Lit "License: "; Lit (license_number (driver_info tripData))]
            (Fin 300) (Fin 60);
          fillText [Lit "Date: "; formatDate logDate] (Fin 550) (Fin 60);
          fillText [Lit "Trip ID: "; NumStr (of_Z (id tripData))] (Fin 50) (Fin 80) ]).

Definition draw_grid : cmd :=
  run [ beginPath;
        forEach (seq 0 5) (fun i =>
          let y := gridY + (of_nat i * gridHeight / Fin 4) in
          run [ moveTo startX y; lineTo (startX + gridWidth) y ]);
        forEach (seq 0 25) (fun i =>
          let x := startX + (of_nat i * gridWidth / Fin 24) in
          run [ moveTo x gridY; lineTo x (gridY + gridHeight) ]);
        stroke;
        set_font "10px Arial";
        set_textAlign "right";
        forEach (seq 0 4) (fun i =>
          let y := gridY + (of_nat i * gridHeight / Fin 4) + (gridHeight / Fin 8) in
          fillText [Lit (nth i statusLabels "undefined"%string)] (startX - Fin 10) (y + Fin 3));
        set_font "8px Arial";
        set_textAlign "center";
        forEach (seq 0 25) (fun i =>
          let x := startX + (of_nat i * gridWidth / Fin 24) in
          fillText [Lit (padStart2 (nat_to_string i))] x (gridY - Fin 5)) ].

Definition draw_totals (totals : totals_t) : cmd :=
  let totalsY := gridY + gridHeight + Fin 30 in
  run [ set_strokeStyle "#000";
        set_lineWidth (Fin 1);
        set_fillStyle "#000";
        set_font "12px Arial";
        set_textAlign "left";
        fillText [Lit "TOTALS:"] (Fin 50) totalsY;
        fillText [Lit "Off Duty: "; Fixed1 (total_off_duty totals); Lit " hrs"]
          (Fin 50) (totalsY + Fin 20);
        fillText [Lit "Sleeper Berth: "; Fixed1 (total_sleeper_berth totals); Lit " hrs"]
          (Fin 200) (totalsY + Fin 20);
        fillText [Lit "Driving: "; Fixed1 (total_driving totals); Lit " hrs"]
          (Fin 350) (totalsY + Fin 20);
        fillText [Lit "On Duty: "; Fixed1 (total_on_duty totals); Lit " hrs"]
          (Fin 500) (totalsY + Fin 20) ].

Definition draw_footer (logDate : string) : cmd :=
  with_size (fun width height =>
    run [ set_font "12px Arial";
          fillText [Lit "Driver Signature: _________________________"]
            (Fin 50) (of_Z height - Fin 40);
          fillText [Lit "Date: "; formatDate logDate] (Fin 400) (of_Z height - Fin 40);
          set_strokeStyle "#000";
          set_lineWidth (Fin 1);
          set_fillStyle "#000" ]).

(** the body of the effect, once the canvas and its context are there *)
Definition render (tripData : TripResponse) (logDate : string) : cmd :=
  let logs := dailyLogs tripData logDate in
  let totalsY := gridY + gridHeight + Fin 30 in
  run [ set_width 800;
        set_height 600;
        set_fillStyle "white";
        with_size (fun width height => fillRect (Fin 0) (Fin 0) (of_Z width) (of_Z height));
        draw_header tripData logDate;
        draw_grid;
        forEach logs draw_log;
        draw_totals (compute_totals logs);
        fillText [Lit "REMARKS:"] (Fin 50) (totalsY + Fin 50);
        draw_remarks logs (totalsY + Fin 70);
        draw_footer logDate ].

Definition effect (tripData : TripResponse) (logDate : string)
    (canvasRef : option canvas) : option canvas :=
  match canvasRef with
  | None => None
  | Some c => Some (render tripData logDate c)
  end.

End ELDLogSheet.

(** ** [getUniqueDates]: the days to render *)

Module UniqueDates.

(** [new Set(dates)]: insertion order of the first occurrences *)
Definition set_add (seen : list string) (d : string) : list string :=
  if existsb (String.eqb d) seen then seen else seen ++ [d].

Definition new_Set (dates : list string) : list string :=
  fold_left set_add dates [].

(** [a.sort()] without comparator orders strings by code units *)
Fixpoint insert (d : string) (l : list string) : list string :=
  match l with
  | [] => [d]
  | x :: l' => if String.leb d x then d :: l else x :: insert d l'
  end.

Fixpoint sort (l : list string) : list string :=
  match l with
  | [] => []
  | d :: l' => insert d (sort l')
  end.

Definition unique_sorted (dates : list string) : list string :=
  sort (new_Set dates).

Definition getUniqueDates (tripData : option TripResponse) : list string :=
  match tripData with
  | None => []
  | Some t => unique_sorted (map log_date (eld_logs t))
  end.

End UniqueDates.

(** ** The lookup of the labels *)

Definition getDutyStatusLabel (status : string) : string :=
  if String.eqb status "driving" then "Driving"
  else if String.eqb status "on_duty" then "On Duty (Not Driving)"
  else if String.eqb status "off_duty" then "Off Duty"
  else if String.eqb status "sleeper_berth" then "Sleeper Berth"
  else status.

(** ** The state of the application: [appReducer] and its callers *)

Module App.

Record AppState : Type := mkAppState {
  currentLocation : option LocationCoordinate;
  pickupLocation : option LocationCoordinate;
  dropoffLocation : option LocationCoordinate;
  currentCycleHours : num;
  tripData : option TripResponse;
  isCalculating : bool;
  error : option string
}.

Inductive AppAction : Type :=
| SET_CURRENT_LOCATION (payload : LocationCoordinate)
| SET_PICKUP_LOCATION (payload : LocationCoordinate)
| SET_DROPOFF_LOCATION (payload : LocationCoordinate)
| SET_CYCLE_HOURS (payload : num)
| SET_CALCULATING (payload : bool)
| SET_TRIP_DATA (payload : TripResponse)
| SET_ERROR (payload : string)
| CLEAR_ERROR.

Definition appReducer (state : AppState) (action : AppAction) : AppState :=
  let '(mkAppState cur pick drop hours trip calc err) := state in
  match action with
  | SET_CURRENT_LOCATION payload => mkAppState (Some payload) pick drop hours trip calc err
  | SET_PICKUP_LOCATION payload => mkAppState cur (Some payload) drop hours trip calc err
  | SET_DROPOFF_LOCATION payload => mkAppState cur pick (Some payload) hours trip calc err
  | SET_CYCLE_HOURS payload => mkAppState cur pick drop payload trip calc err
  | SET_CALCULATING payload => mkAppState cur pick drop hours trip payload err
  | SET_TRIP_DATA payload => mkAppState cur pick drop hours (Some payload) false err
  | SET_ERROR payload => mkAppState cur pick drop hours trip false (Some payload)
  | CLEAR_ERROR => mkAppState cur pick drop hours trip calc None
  end.

(** the state after a sequence of [dispatch] calls *)
Definition dispatch_all (actions : list AppAction) (state : AppState) : AppState :=
  fold_left appReducer actions state.

(** the initial state of [useReducer] *)
Definition initial_state : AppState :=
  mkAppState None None None (Fin 7) None false None.

Record TripRequest : Type := mkTripRequest {
  req_current_location : LocationCoordinate;
  req_pickup_location : LocationCoordinate;
  req_dropoff_location : LocationCoordinate;
  req_current_cycle_used_hours : num
}.

(** how the promise of [TripAPIService.createTrip] settles: with a trip,
    with a thrown [Error] and its message, or with another thrown value *)
Inductive settled : Type :=
| Resolved (tripResponse : TripResponse)
| RejectedError (message : string)
| RejectedOther.

(** what one run of [calculateTrip] does: the requests it sends and the
    actions it dispatches, in order *)
Record run_t : Type := mkRun {
  requests : list TripRequest;
  dispatched : list AppAction
}.

Definition calculateTrip (createTrip : TripRequest -> settled) (state : AppState) : run_t :=
  match currentLocation state, pickupLocation state, dropoffLocation state with
  | Some current, Some pickup, Some dropoff =>
      let tripRequest := mkTripRequest current pickup dropoff (currentCycleHours state) in
      mkRun [tripRequest]
        ([SET_CALCULATING true; CLEAR_ERROR]
         ++ match createTrip tripRequest with
            | Resolved tripResponse => [SET_TRIP_DATA tripResponse]
            | RejectedError message => [SET_ERROR message]
            | RejectedOther =>
                [SET_ERROR "Failed to calculate trip. Please check your connection and try again."]
            end)
  | _, _, _ =>
      mkRun [] [SET_ERROR "Please set all location coordinates before calculating trip"]
  end.

(** [handleSetLocation], given the [results] the geocoder answered: none
    (an alert, nothing dispatched) or the location handed to
    [onLocationSet] *)
Definition handleSetLocation (results : option LocationCoordinate)
    (onLocationSet : LocationCoordinate -> AppAction) : list AppAction :=
  match results with
  | None => []
  | Some r => [onLocationSet (mkLocation (lat r) (lng r))]
  end.

(** the [onChange] of the cycle-hours input *)
Definition cycle_hours_changed (value : string) : AppAction :=
  SET_CYCLE_HOURS (or_else (parseFloat value) (Fin 0)).

End App.

(** * Views used by the statements

    Orders, bounds and the parts of a rendered surface, as the properties
    below name them. *)

Module DatesSpec.

Definition str_le (a b : string) : Prop := String.leb a b = true.
Definition str_lt (a b : string) : Prop := String.ltb a b = true.

(** the dates a trip has entries for *)
Definition log_dates (tripData : option TripResponse) : list string :=
  match tripData with
  | None => []
  | Some t => map log_date (eld_logs t)
  end.

End DatesSpec.

Module ProjectionSpec.

Local Open Scope Q_scope.

(** a route whose coordinates are all finite numbers *)
Definition finite_route (pts : list (Q * Q)) : list (num * num) :=
  map (fun p => (Fin (fst p), Fin (snd p))) pts.

(** the least and greatest element, as [Math.min] and [Math.max] find them *)
Fixpoint qmin_from (m : Q) (l : list Q) : Q :=
  match l with
  | [] => m
  | x :: l' => qmin_from (match x ?= m with Lt => x | _ => m end) l'
  end.

Fixpoint qmax_from (m : Q) (l : list Q) : Q :=
  match l with
  | [] => m
  | x :: l' => qmax_from (match m ?= x with Lt => x | _ => m end) l'
  end.

(** the bounds in the words of the specification *)
Definition is_min (m : Q) (l : list Q) : Prop :=
  In m l /\ forall x, In x l -> m <= x.

Definition is_max (m : Q) (l : list Q) : Prop :=
  In m l /\ forall x, In x l -> x <= m.

(** the range, with 1 substituted when it is zero *)
Definition range_or_one (r : Q) : Q := if Qeq_bool r 0 then 1 else r.

(** the point the specification's formula yields *)
Definition spec_x (minLng lngRange W lng : Q) : Q :=
  40 + (lng - minLng) / lngRange * (W - 2 * 40).

Definition spec_y (maxLat latRange H lat : Q) : Q :=
  40 + (maxLat - lat) / latRange * (H - 2 * 40).

End ProjectionSpec.

Module Frame.

(** the same canvas over a bitmap that already holds [bm] *)
Definition rebase (bm : list prim) (c : canvas) : canvas :=
  mkCanvas (width c) (height c) (ctx c) (bm ++ bitmap c).

Definition wipe (c : canvas) : canvas :=
  mkCanvas (width c) (height c) (ctx c) [].

(** A drawing command keeps the size of the canvas and only appends to
    the bitmap: what it paints does not depend on what is painted. *)
Definition drawing (k : cmd) : Prop :=
  forall c, width (k c) = width c /\ height (k c) = height c
            /\ forall bm, k (rebase bm c) = rebase bm (k c).

(** a command that only edits the current path *)
Definition path_only (k : cmd) : Prop := exists g, forall c, k c = update_path g c.

End Frame.

Module SheetParts.
Import ELDLogSheet.

(** the segment and the time labels of one entry *)
Definition log_prims (log : ELDLog) : list prim :=
  bitmap (draw_log log (blank 800 600)).

(** background, header and grid *)
Definition sheet_top (tripData : TripResponse) (logDate : string) : list prim :=
  bitmap (run [ set_fillStyle "white";
                fillRect (Fin 0) (Fin 0) (of_Z 800) (of_Z 600);
                draw_header tripData logDate;
                draw_grid ] (blank 800 600)).

(** the totals line and the heading of the remarks *)
Definition totals_block (totals : totals_t) : cmd :=
  run [ draw_totals totals;
        fillText [Lit "REMARKS:"] (Fin 50) (gridY + gridHeight + Fin 30 + Fin 50) ].

Definition sheet_totals (totals : totals_t) : list prim :=
  bitmap (totals_block totals (blank 800 600)).

(** the remark lines, as the loop over the entries draws them *)
Fixpoint remark_prims (fs ta : string) (h : Z) (logs : list ELDLog) (remarkY : num)
  : list prim :=
  match logs with
  | [] => []
  | log :: rest =>
      if str_truthy (remarks log) && lt remarkY (of_Z h - Fin 30)
      then match remarkY with
           | Fin y =>
               [FillText fs "10px Arial" ta
                  [formatTime (start_time log); Lit ": "; Lit (remarks log)] 50 y]
           | _ => []
           end ++ remark_prims fs ta h rest (remarkY + Fin 15)
      else remark_prims fs ta h rest remarkY
  end.

Definition sheet_remarks (logs : list ELDLog) : list prim :=
  remark_prims "#000" "left" 600 logs (gridY + gridHeight + Fin 30 + Fin 70).

Definition sheet_footer (logDate : string) : list prim :=
  bitmap (draw_footer logDate
            (mkCanvas 800 600 (mkCtx "#000" "#000" 1 "12px Arial" "left" []) [])).

(** the same entry filed under another date *)
Definition relabel (f : string -> string) (log : ELDLog) : ELDLog :=
  mkELDLog (log_id log) (f (log_date log)) (duty_status log)
    (start_time log) (end_time log) (duration_hours log) (remarks log).

Definition relabel_trip (f : string -> string) (t : TripResponse) : TripResponse :=
  mkTrip (id t) (driver_info t) (current_location t) (pickup_location t)
    (dropoff_location t) (route_coordinates t) (rest_stops t)
    (map (relabel f) (eld_logs t)).

(** the sum of [duration_hours] over the entries of one status, taken in
    input order from 0 *)
Definition status_sum (s : duty_status_t) (logs : list ELDLog) : num :=
  fold_left add
    (map duration_hours (filter (fun log => duty_status_eqb (duty_status log) s) logs))
    (Fin 0).

(** the total of one status as the sheet shows it *)
Definition totals_label (s : duty_status_t) : string :=
  match s with
  | off_duty => "Off Duty: "
  | sleeper_berth => "Sleeper Berth: "
  | driving => "Driving: "
  | on_duty => "On Duty: "
  end.

Definition totals_x (s : duty_status_t) : Q :=
  match s with
  | off_duty => 50
  | sleeper_berth => 200
  | driving => 350
  | on_duty => 500
  end.

Definition total_text (s : duty_status_t) (n : num) : prim :=
  FillText "#000" "12px Arial" "left"
    [Lit (totals_label s); Fixed1 n; Lit " hrs"] (totals_x s) 460.



Definition is_stroke (p : prim) : bool :=
  match p with Stroke _ _ _ => true | _ => false end.

(** sample data *)
Definition sample_driver : DriverInfo := mkDriverInfo "A. Driver" "L-100".

Definition origin : LocationCoordinate := mkLocation (Fin 0) (Fin 0).

Definition sample_trip (logs : list ELDLog) : TripResponse :=
  mkTrip 7 sample_driver origin origin origin [] [] logs.

Definition driving_entry : ELDLog :=
  mkELDLog 1 "2024-01-01" driving "08:00" "10:30" (Fin 2.5) "".


End SheetParts.

Module MapParts.
Import MapView.

(** the polyline of the route *)
Definition route_part (p : projection) (first : num * num) (rest : list (num * num)) : cmd :=
  run [ set_strokeStyle "#3b82f6";
        set_lineWidth (Fin 3);
        beginPath;
        (let '(startX, startY) := toCanvas p (fst first) (snd first) in
         moveTo startX startY);
        forEach rest (fun c => let '(x, y) := toCanvas p (fst c) (snd c) in lineTo x y);
        stroke ].

Definition route_path (p : projection) (first : num * num) (rest : list (num * num)) : path_t :=
  path (ctx (run [ (let '(startX, startY) := toCanvas p (fst first) (snd first) in
                    moveTo startX startY);
                   forEach rest
                     (fun c => let '(x, y) := toCanvas p (fst c) (snd c) in lineTo x y) ]
               (blank 0 0))).

Definition stroke_prims (ss : string) (lw : Q) (P : path_t) : list prim :=
  match traced P with
  | [] => []
  | tp => [Stroke ss lw tp]
  end.

(** one marker *)
Definition marker_prims (p : projection) (lat lng : num) (color : string) (label : text)
  : list prim :=
  bitmap (drawMarker p lat lng color label (blank 0 0)).

Definition marker_path (p : projection) (lat lng : num) : path_t :=
  path (ctx (drawMarker p lat lng "" [] (blank 0 0))).

(** the rest stops *)
Definition stop_drawn (stop : RestStop) : bool :=
  truthy (lat (location stop)) && truthy (lng (location stop)).

Definition stop_label (index : nat) : text := [Lit "S"; NumStr (of_nat index + Fin 1)].

Fixpoint stops_prims (p : projection) (stops : list RestStop) (index : nat) : list prim :=
  match stops with
  | [] => []
  | stop :: rest =>
      (if stop_drawn stop
       then marker_prims p (lat (location stop)) (lng (location stop)) "#8b5cf6"
              (stop_label index)
       else [])
      ++ stops_prims p rest (S index)
  end.

Fixpoint stops_path (p : projection) (stops : list RestStop) (P : path_t) : path_t :=
  match stops with
  | [] => P
  | stop :: rest =>
      stops_path p rest
        (if stop_drawn stop
         then marker_path p (lat (location stop)) (lng (location stop))
         else P)
  end.

(** everything the map shows *)
Definition placeholder_prims (w h : Z) : list prim :=
  bitmap (placeholder (of_Z w) (of_Z h) (blank w h)).

Definition route_prims (t : TripResponse) (w h : Z) : list prim :=
  match route_coordinates t with
  | [] => placeholder_prims w h
  | first :: rest =>
      let p := find_bounds (route_coordinates t) (of_Z w) (of_Z h) in
      stroke_prims "#3b82f6" 3 (route_path p first rest)
      ++ marker_prims p (lat (current_location t)) (lng (current_location t))
           "#10b981" [Lit "Current"]
      ++ marker_prims p (lat (pickup_location t)) (lng (pickup_location t))
           "#f59e0b" [Lit "Pickup"]
      ++ marker_prims p (lat (dropoff_location t)) (lng (dropoff_location t))
           "#ef4444" [Lit "Dropoff"]
      ++ stops_prims p (rest_stops t) 0
  end.

Definition map_prims (tripData : option TripResponse) (w h : Z) : list prim :=
  FillRect "#f8fafc" 0 0 (inject_Z w) (inject_Z h)
  :: match tripData with
     | None => placeholder_prims w h
     | Some t => route_prims t w h
     end.

Definition final_path (t : TripResponse) (w h : Z) : path_t :=
  let p := find_bounds (route_coordinates t) (of_Z w) (of_Z h) in
  stops_path p (rest_stops t)
    (marker_path p (lat (dropoff_location t)) (lng (dropoff_location t))).

(** sample data: a route from (0, 0) to (1, 1) *)
Definition sample_route : list (num * num) := [(Fin 0, Fin 0); (Fin 1, Fin 1)].

Definition route_trip (current : LocationCoordinate) (stops : list RestStop)
  : TripResponse :=
  mkTrip 7 SheetParts.sample_driver current
    (mkLocation (Fin 0) (Fin 0)) (mkLocation (Fin 1) (Fin 1)) sample_route stops [].

(** the current location lies north-east of the whole route *)
Definition far_trip : TripResponse := route_trip (mkLocation (Fin 5) (Fin 5)) [].

(** a rest stop on the equator, half-way along the route's longitudes *)
Definition equator_stop : RestStop := mkRestStop 1 (mkLocation (Fin 0) (Fin 0.5)).

Definition equator_trip : TripResponse :=
  route_trip (mkLocation (Fin 0) (Fin 0)) [equator_stop].

Definition no_stop_trip : TripResponse :=
  route_trip (mkLocation (Fin 0) (Fin 0)) [].

End MapParts.

Module AppViews.
Import App.

(** sample data: a state with its three locations set *)
Definition ready_state : AppState :=
  mkAppState (Some (mkLocation (Fin 6.5) (Fin 3.4)))
    (Some (mkLocation (Fin 7.3) (Fin 3.9)))
    (Some (mkLocation (Fin 9) (Fin 7.4))) (Fin 7) None false None.

Definition ready_request : TripRequest :=
  mkTripRequest (mkLocation (Fin 6.5) (Fin 3.4)) (mkLocation (Fin 7.3) (Fin 3.9))
    (mkLocation (Fin 9) (Fin 7.4)) (Fin 7).

End AppViews.

Module SheetViews.
Import ELDLogSheet.

(** a string without colon *)
Fixpoint colon_free (s : string) : bool :=
  match s with
  | EmptyString => true
  | String c r => negb (Ascii.eqb c ":") && colon_free r
  end.

Definition has_remark (log : ELDLog) : bool := str_truthy (remarks log).

(** the height of the [i]-th remark line: from [totalsY + 70], 15 apart *)
Fixpoint remark_y (i : nat) : Q :=
  match i with
  | O => 110 + 300 + 30 + 70
  | S j => remark_y j + 15
  end.

Definition remark_line (i : nat) (log : ELDLog) : prim :=
  FillText "#000" "10px Arial" "left"
    [formatTime (start_time log); Lit ": "; Lit (remarks log)] 50 (remark_y i).

Fixpoint lines_from (i : nat) (logs : list ELDLog) : list prim :=
  match logs with
  | [] => []
  | log :: rest => remark_line i log :: lines_from (S i) rest
  end.

Definition is_text (p : prim) : bool :=
  match p with FillText _ _ _ _ _ _ => true | _ => false end.

End SheetViews.

Module MapViews.
Import MapView ProjectionSpec.

(** the projected point of a finite coordinate pair, by the formula *)
Definition projected (minLng maxLat lngRange latRange W H : Q) (pt : Q * Q) : elem :=
  Pt (spec_x minLng lngRange W (snd pt)) (spec_y maxLat latRange H (fst pt)).

(** a coordinate pair with a NaN in it *)
Definition has_nan (pt : num * num) : bool :=
  match pt with
  | (NaN, _) | (_, NaN) => true
  | _ => false
  end.

End MapViews.

(** * Properties *)

(** ** The day partitioner *)

Module UniqueDatesFacts.
Import UniqueDates DatesSpec.

Lemma str_lt_iff a b : str_lt a b <-> String_as_OT.lt a b.
Proof.
  unfold str_lt, String.ltb. rewrite <- String_as_OT.cmp_lt.
  unfold String_as_OT.cmp. destruct (String.compare a b); split; congruence.
Qed.

Lemma str_le_iff a b : str_le a b <-> a = b \/ str_lt a b.
Proof.
  unfold str_le, str_lt, String.leb, String.ltb.
  rewrite <- (String_as_OT.cmp_eq a b). unfold String_as_OT.cmp.
  destruct (String.compare a b); intuition congruence.
Qed.

#[local] Instance str_lt_trans : Transitive str_lt.
Proof.
  intros a b c Hab Hbc. rewrite str_lt_iff in *.
  eapply String_as_OT.lt_trans; eassumption.
Qed.

#[local] Instance str_le_trans : Transitive str_le.
Proof.
  intros a b c Hab Hbc. rewrite str_le_iff in *.
  destruct Hab as [-> | Hab]; [assumption |].
  destruct Hbc as [<- | Hbc]; [now right |].
  right. etransitivity; eassumption.
Qed.

Lemma str_lt_irrefl a : ~ str_lt a a.
Proof.
  rewrite str_lt_iff. intros H. exact (String_as_OT.lt_not_eq _ _ H eq_refl).
Qed.

(** *** [new Set] *)

Lemma set_add_in seen d x : In x (set_add seen d) <-> In x seen \/ x = d.
Proof.
  unfold set_add. destruct (existsb (String.eqb d) seen) eqn:E.
  - apply existsb_exists in E. destruct E as [y [Hy Heq]].
    apply String.eqb_eq in Heq. subst y. intuition (subst; assumption).
  - rewrite in_app_iff. simpl. intuition.
Qed.

Lemma set_add_nodup seen d : NoDup seen -> NoDup (set_add seen d).
Proof.
  intros Hnd. unfold set_add. destruct (existsb (String.eqb d) seen) eqn:E; [assumption |].
  apply NoDup_app; [assumption | repeat constructor; simpl; tauto |].
  intros x Hx [Heq | []]. subst x.
  assert (existsb (String.eqb d) seen = true) as E'
    by (apply existsb_exists; exists d; split; [assumption | apply String.eqb_refl]).
  congruence.
Qed.

Lemma fold_set_add_in dates : forall seen x,
  In x (fold_left set_add dates seen) <-> In x seen \/ In x dates.
Proof.
  induction dates as [| d dates IH]; intros seen x; simpl.
  - tauto.
  - rewrite IH, set_add_in. intuition.
Qed.

Lemma fold_set_add_nodup dates : forall seen,
  NoDup seen -> NoDup (fold_left set_add dates seen).
Proof.
  induction dates as [| d dates IH]; intros seen Hnd; simpl; [assumption |].
  apply IH, set_add_nodup, Hnd.
Qed.

Lemma fold_set_add_fresh dates : forall seen,
  NoDup (seen ++ dates) -> fold_left set_add dates seen = seen ++ dates.
Proof.
  induction dates as [| d dates IH]; intros seen Hnd; simpl.
  - now rewrite app_nil_r.
  - assert (set_add seen d = seen ++ [d]) as ->.
    { unfold set_add. destruct (existsb (String.eqb d) seen) eqn:E; [| reflexivity].
      exfalso. apply existsb_exists in E. destruct E as [y [Hy Heq]].
      apply String.eqb_eq in Heq. subst y.
      apply NoDup_remove_2 in Hnd. apply Hnd. apply in_or_app. now left. }
    rewrite IH; rewrite <- app_assoc; [reflexivity | exact Hnd].
Qed.

Lemma new_Set_in dates x : In x (new_Set dates) <-> In x dates.
Proof. unfold new_Set. rewrite fold_set_add_in. simpl. tauto. Qed.

Lemma new_Set_nodup dates : NoDup (new_Set dates).
Proof. apply fold_set_add_nodup. constructor. Qed.

Lemma new_Set_fixed dates : NoDup dates -> new_Set dates = dates.
Proof. intros H. unfold new_Set. now rewrite fold_set_add_fresh. Qed.

(** *** [sort] *)

Lemma insert_perm d l : Permutation (insert d l) (d :: l).
Proof.
  induction l as [| x l IH]; simpl; [reflexivity |].
  destruct (String.leb d x); [reflexivity |].
  rewrite IH. apply perm_swap.
Qed.

Lemma sort_perm l : Permutation (sort l) l.
Proof.
  induction l as [| d l IH]; simpl; [reflexivity |].
  rewrite insert_perm. now constructor.
Qed.

Lemma insert_sorted d l : Sorted str_le l -> Sorted str_le (insert d l).
Proof.
  induction 1 as [| x l Hs IH Hhd]; simpl; [repeat constructor |].
  destruct (String.leb d x) eqn:E.
  - repeat constructor; assumption.
  - constructor; [assumption |].
    assert (str_le x d) as Hxd
      by (destruct (String.leb_total d x) as [H | H]; [congruence | exact H]).
    destruct Hhd as [| y l Hxy]; simpl; [now constructor |].
    destruct (String.leb d y); now constructor.
Qed.

Lemma sort_sorted l : Sorted str_le (sort l).
Proof.
  induction l as [| d l IH]; simpl; [constructor | now apply insert_sorted].
Qed.

Lemma insert_head d l : HdRel str_le d l -> insert d l = d :: l.
Proof.
  destruct 1 as [| x l H]; simpl; [reflexivity |].
  unfold str_le in H. now rewrite H.
Qed.

Lemma sort_fixed l : Sorted str_le l -> sort l = l.
Proof.
  induction 1 as [| d l Hs IH Hhd]; simpl; [reflexivity |].
  rewrite IH. now apply insert_head.
Qed.

Lemma strict_of_nodup l :
  StronglySorted str_le l -> NoDup l -> StronglySorted str_lt l.
Proof.
  induction 1 as [| d l Hs IH Hall]; intros Hnd; [constructor |].
  inversion Hnd as [| ? ? Hnotin Hnd']; subst.
  constructor; [now apply IH |].
  rewrite Forall_forall in *. intros x Hx.
  destruct (proj1 (str_le_iff d x) (Hall x Hx)) as [-> | Hlt]; [contradiction | exact Hlt].
Qed.

Lemma unique_sorted_in dates x : In x (unique_sorted dates) <-> In x dates.
Proof.
  unfold unique_sorted. split; intros H.
  - apply new_Set_in. eapply Permutation_in; [apply sort_perm | exact H].
  - eapply Permutation_in; [symmetry; apply sort_perm | apply new_Set_in; exact H].
Qed.

Lemma unique_sorted_nodup dates : NoDup (unique_sorted dates).
Proof.
  unfold unique_sorted.
  eapply Permutation_NoDup; [symmetry; apply sort_perm | apply new_Set_nodup].
Qed.

Lemma unique_sorted_ascending dates : StronglySorted str_lt (unique_sorted dates).
Proof.
  apply strict_of_nodup; [| apply unique_sorted_nodup].
  apply Sorted_StronglySorted; [exact str_le_trans | apply sort_sorted].
Qed.

Lemma unique_sorted_idempotent dates :
  unique_sorted (unique_sorted dates) = unique_sorted dates.
Proof.
  unfold unique_sorted at 1.
  rewrite new_Set_fixed by apply unique_sorted_nodup.
  apply sort_fixed, sort_sorted.
Qed.

(** a strictly ascending list is determined by its elements *)
Lemma ascending_unique l1 : forall l2,
  StronglySorted str_lt l1 -> StronglySorted str_lt l2 ->
  (forall x, In x l1 <-> In x l2) -> l1 = l2.
Proof.
  induction l1 as [| a l1 IH]; intros l2 H1 H2 Hin.
  - destruct l2 as [| b l2]; [reflexivity |]. exfalso. apply (Hin b). now left.
  - destruct l2 as [| b l2]; [exfalso; apply (Hin a); now left |].
    inversion H1 as [| ? ? Hs1 Ha]; inversion H2 as [| ? ? Hs2 Hb]; subst.
    rewrite Forall_forall in Ha, Hb.
    assert (a = b) as ->.
    { destruct (proj1 (Hin a) (or_introl eq_refl)) as [E | Hab]; [now symmetry |].
      destruct (proj2 (Hin b) (or_introl eq_refl)) as [E | Hba]; [assumption |].
      exfalso. apply (str_lt_irrefl a). transitivity b; auto. }
    f_equal. apply IH; try assumption.
    intros x. split; intros Hx.
    + destruct (proj1 (Hin x) (or_intror Hx)) as [E | H]; [| exact H].
      subst x. exfalso. exact (str_lt_irrefl _ (Ha _ Hx)).
    + destruct (proj2 (Hin x) (or_intror Hx)) as [E | H]; [| exact H].
      subst x. exfalso. exact (str_lt_irrefl _ (Hb _ Hx)).
Qed.

End UniqueDatesFacts.

(** ** The projection *)

Module ProjectionFacts.
Import MapView ProjectionSpec.

Local Open Scope Q_scope.

Lemma math_min_from_fin l : forall m,
  math_min_from (Fin m) (map Fin l) = Fin (qmin_from m l).
Proof.
  induction l as [| x l IH]; intros m; simpl; [reflexivity |].
  destruct (x ?= m); apply IH.
Qed.

Lemma math_max_from_fin l : forall m,
  math_max_from (Fin m) (map Fin l) = Fin (qmax_from m l).
Proof.
  induction l as [| x l IH]; intros m; simpl; [reflexivity |].
  unfold gt, lt. destruct (m ?= x); apply IH.
Qed.

Lemma math_min_fin q l : math_min (map Fin (q :: l)) = Fin (qmin_from q l).
Proof. unfold math_min. simpl. apply math_min_from_fin. Qed.

Lemma math_max_fin q l : math_max (map Fin (q :: l)) = Fin (qmax_from q l).
Proof. unfold math_max. simpl. apply math_max_from_fin. Qed.

Lemma qmin_from_spec l : forall m,
  In (qmin_from m l) (m :: l) /\ qmin_from m l <= m
  /\ forall x, In x l -> qmin_from m l <= x.
Proof.
  induction l as [| x l IH]; intros m; simpl.
  - split; [now left | split; [apply Qle_refl | tauto]].
  - destruct (x ?= m) eqn:E.
    + apply Qeq_alt in E. destruct (IH m) as [Hin [Hle Hall]].
      split; [ destruct Hin; tauto |].
      split; [assumption |].
      intros y [<- | Hy]; [rewrite E; assumption | now apply Hall].
    + apply Qlt_alt in E. destruct (IH x) as [Hin [Hle Hall]].
      split; [ destruct Hin; tauto |].
      split; [apply Qle_trans with x; [assumption | now apply Qlt_le_weak] |].
      intros y [<- | Hy]; [assumption | now apply Hall].
    + apply Qgt_alt in E. destruct (IH m) as [Hin [Hle Hall]].
      split; [ destruct Hin; tauto |].
      split; [assumption |].
      intros y [<- | Hy]; [apply Qle_trans with m; [assumption | now apply Qlt_le_weak]
                          | now apply Hall].
Qed.

Lemma qmax_from_spec l : forall m,
  In (qmax_from m l) (m :: l) /\ m <= qmax_from m l
  /\ forall x, In x l -> x <= qmax_from m l.
Proof.
  induction l as [| x l IH]; intros m; simpl.
  - split; [now left | split; [apply Qle_refl | tauto]].
  - destruct (m ?= x) eqn:E.
    + apply Qeq_alt in E. destruct (IH m) as [Hin [Hle Hall]].
      split; [ destruct Hin; tauto |].
      split; [assumption |].
      intros y [<- | Hy]; [rewrite <- E; assumption | now apply Hall].
    + apply Qlt_alt in E. destruct (IH x) as [Hin [Hle Hall]].
      split; [ destruct Hin; tauto |].
      split; [apply Qle_trans with x; [now apply Qlt_le_weak | assumption] |].
      intros y [<- | Hy]; [assumption | now apply Hall].
    + apply Qgt_alt in E. destruct (IH m) as [Hin [Hle Hall]].
      split; [ destruct Hin; tauto |].
      split; [assumption |].
      intros y [<- | Hy]; [apply Qle_trans with m; [now apply Qlt_le_weak | assumption]
                          | now apply Hall].
Qed.

Lemma qmin_is_min q l : is_min (qmin_from q l) (q :: l).
Proof.
  destruct (qmin_from_spec l q) as [Hin [Hle Hall]].
  split; [assumption |]. intros x [<- | Hx]; auto.
Qed.

Lemma qmax_is_max q l : is_max (qmax_from q l) (q :: l).
Proof.
  destruct (qmax_from_spec l q) as [Hin [Hle Hall]].
  split; [assumption |]. intros x [<- | Hx]; auto.
Qed.

Lemma range_or_one_nonzero r : Qeq_bool (range_or_one r) 0 = false.
Proof.
  unfold range_or_one. destruct (Qeq_bool r 0) eqn:E; [reflexivity | exact E].
Qed.

Lemma or_else_one r : or_else (Fin r) (Fin 1) = Fin (range_or_one r).
Proof.
  unfold or_else, range_or_one, truthy. now destruct (Qeq_bool r 0).
Qed.

(** the closure over a finite, non-empty route *)
Lemma find_bounds_finite p pts W H :
  find_bounds (finite_route (p :: pts)) W H =
  mkProjection
    (Fin (qmin_from (fst p) (map fst pts))) (Fin (qmax_from (fst p) (map fst pts)))
    (Fin (qmin_from (snd p) (map snd pts))) (Fin (qmax_from (snd p) (map snd pts)))
    (Fin (range_or_one (qmax_from (fst p) (map fst pts) - qmin_from (fst p) (map fst pts))))
    (Fin (range_or_one (qmax_from (snd p) (map snd pts) - qmin_from (snd p) (map snd pts))))
    W H.
Proof.
  unfold find_bounds, finite_route.
  rewrite !map_map.
  change (map (fun x : Q * Q => fst (Fin (fst x), Fin (snd x))) (p :: pts))
    with (map (fun x : Q * Q => Fin (fst x)) (p :: pts)).
  change (map (fun x : Q * Q => snd (Fin (fst x), Fin (snd x))) (p :: pts))
    with (map (fun x : Q * Q => Fin (snd x)) (p :: pts)).
  rewrite <- (map_map fst Fin), <- (map_map snd Fin).
  change (map fst (p :: pts)) with (fst p :: map fst pts).
  change (map snd (p :: pts)) with (snd p :: map snd pts).
  rewrite !math_min_fin, !math_max_fin.
  cbv zeta. cbv beta iota delta [sub]. rewrite !or_else_one. reflexivity.
Qed.

Lemma toCanvas_finite minLat minLng maxLat maxLng latR lngR W H lat lng :
  toCanvas (mkProjection (Fin minLat) (Fin maxLat) (Fin minLng) (Fin maxLng)
              (Fin (range_or_one latR)) (Fin (range_or_one lngR)) (Fin W) (Fin H))
    (Fin lat) (Fin lng)
  = (Fin (spec_x minLng (range_or_one lngR) W lng),
     Fin (spec_y maxLat (range_or_one latR) H lat)).
Proof.
  unfold toCanvas, spec_x, spec_y, padding. cbn [MapView.minLng MapView.maxLat
    MapView.lngRange MapView.latRange surface_width surface_height].
  cbv beta iota delta [add sub mul div].
  rewrite !range_or_one_nonzero. reflexivity.
Qed.

(** the projected point stays in the padded area as soon as the surface
    is at least as large as the two paddings *)
Lemma spec_within lo hi v S :
  lo <= v -> v <= hi -> 2 * 40 <= S ->
  let f := (v - lo) / range_or_one (hi - lo) in
  40 <= 40 + f * (S - 2 * 40) /\ 40 + f * (S - 2 * 40) <= S - 40.
Proof.
  intros Hlo Hhi HS f.
  assert (0 < range_or_one (hi - lo) /\ v - lo <= range_or_one (hi - lo)) as [Hpos Hle].
  { unfold range_or_one. destruct (Qeq_bool (hi - lo) 0) eqn:E.
    - apply Qeq_bool_eq in E. split; lra.
    - apply Qeq_bool_neq in E. split; lra. }
  assert (0 <= f) as Hf0.
  { unfold f. apply Qle_shift_div_l; [assumption | lra]. }
  assert (f <= 1) as Hf1.
  { unfold f. apply Qle_shift_div_r; [assumption | lra]. }
  clearbody f. split; nra.
Qed.

Lemma spec_within_inverted lo hi v S :
  lo <= v -> v <= hi -> 2 * 40 <= S ->
  let f := (hi - v) / range_or_one (hi - lo) in
  40 <= 40 + f * (S - 2 * 40) /\ 40 + f * (S - 2 * 40) <= S - 40.
Proof.
  intros Hlo Hhi HS f.
  assert (0 < range_or_one (hi - lo) /\ hi - v <= range_or_one (hi - lo)) as [Hpos Hle].
  { unfold range_or_one. destruct (Qeq_bool (hi - lo) 0) eqn:E.
    - apply Qeq_bool_eq in E. split; lra.
    - apply Qeq_bool_neq in E. split; lra. }
  assert (0 <= f) as Hf0.
  { unfold f. apply Qle_shift_div_l; [assumption | lra]. }
  assert (f <= 1) as Hf1.
  { unfold f. apply Qle_shift_div_r; [assumption | lra]. }
  clearbody f. split; nra.
Qed.

End ProjectionFacts.

(** ** Reasoning about canvas programs *)

Module CanvasFacts.
Import Frame.

Lemma forEach_cons {A} (x : A) l body c :
  forEach (x :: l) body c = forEach l body (body x c).
Proof. reflexivity. Qed.

Ltac frame :=
  intros [? ? [? ? ? ? ? ?] ?]; cbn;
  repeat match goal with
         | |- context [match ?x with _ => _ end] => destruct x; cbn
         end;
  repeat split; intros; unfold rebase; cbn;
  rewrite <- ?app_assoc; reflexivity.

Lemma drawing_id : drawing (fun c => c).
Proof. frame. Qed.

Lemma drawing_with_ctx f : drawing (with_ctx f).
Proof. intros [w h k bm0]. cbn. repeat split. Qed.

Lemma drawing_set_fillStyle s : drawing (set_fillStyle s).
Proof. apply drawing_with_ctx. Qed.

Lemma drawing_set_strokeStyle s : drawing (set_strokeStyle s).
Proof. apply drawing_with_ctx. Qed.

Lemma drawing_set_font s : drawing (set_font s).
Proof. apply drawing_with_ctx. Qed.

Lemma drawing_set_textAlign s : drawing (set_textAlign s).
Proof. apply drawing_with_ctx. Qed.

Lemma drawing_set_lineWidth w : drawing (set_lineWidth w).
Proof.
  unfold set_lineWidth. destruct w; try apply drawing_id.
  destruct (Qle_bool q 0); [apply drawing_id | apply drawing_with_ctx].
Qed.

Lemma drawing_beginPath : drawing beginPath.
Proof. apply drawing_with_ctx. Qed.

Lemma drawing_moveTo x y : drawing (moveTo x y).
Proof. destruct x, y; try apply drawing_id. apply drawing_with_ctx. Qed.

Lemma drawing_lineTo x y : drawing (lineTo x y).
Proof. destruct x, y; try apply drawing_id. apply drawing_with_ctx. Qed.

Lemma drawing_arc x y r a0 a1 : drawing (arc x y r a0 a1).
Proof. destruct x, y; try apply drawing_id. apply drawing_with_ctx. Qed.

Lemma drawing_fillRect x y w h : drawing (fillRect x y w h).
Proof.
  destruct x, y, w, h; try apply drawing_id.
  intros [cw ch k bm0]. cbn.
  destruct (Qeq_bool q1 0 || Qeq_bool q2 0); repeat split; intros; unfold rebase; cbn;
    rewrite <- ?app_assoc; reflexivity.
Qed.

Lemma drawing_fillText t x y : drawing (fillText t x y).
Proof. destruct x, y; try apply drawing_id. frame. Qed.

Lemma drawing_stroke : drawing stroke.
Proof.
  intros [w h [fs ss lw fn ta p] bm0]. cbn.
  destruct (traced p); repeat split; intros; unfold rebase; cbn;
    rewrite <- ?app_assoc; reflexivity.
Qed.

Lemma drawing_fill : drawing fill.
Proof.
  intros [w h [fs ss lw fn ta p] bm0]. cbn.
  destruct (traced p); repeat split; intros; unfold rebase; cbn;
    rewrite <- ?app_assoc; reflexivity.
Qed.

Lemma drawing_seq k1 k2 : drawing k1 -> drawing k2 -> drawing (fun c => k2 (k1 c)).
Proof.
  intros H1 H2 c. destruct (H1 c) as [Hw1 [Hh1 Hf1]].
  destruct (H2 (k1 c)) as [Hw2 [Hh2 Hf2]].
  split; [congruence | split; [congruence |]].
  intros bm. now rewrite Hf1, Hf2.
Qed.

Lemma drawing_run body : Forall drawing body -> drawing (run body).
Proof.
  induction 1 as [| k ks Hk Hks IH]; [apply drawing_id |].
  exact (drawing_seq k (run ks) Hk IH).
Qed.

Lemma drawing_forEach {A} (l : list A) body :
  (forall x, drawing (body x)) -> drawing (forEach l body).
Proof.
  intros Hb. induction l as [| x l IH]; [apply drawing_id |].
  exact (drawing_seq (body x) (forEach l body) (Hb x) IH).
Qed.

Lemma drawing_forEach_from {A} (l : list A) body :
  (forall x i, drawing (body x i)) -> forall i, drawing (forEach_from i l body).
Proof.
  intros Hb. induction l as [| x l IH]; intros i; [apply drawing_id |].
  exact (drawing_seq (body x i) (forEach_from (S i) l body) (Hb x i) (IH (S i))).
Qed.

Lemma drawing_if (b : bool) k1 k2 : drawing k1 -> drawing k2 -> drawing (if b then k1 else k2).
Proof. now destruct b. Qed.

Lemma drawing_with_size (body : Z -> Z -> cmd) :
  (forall w h, drawing (body w h)) -> drawing (with_size body).
Proof.
  intros Hk [w h k bm]. destruct (Hk w h (mkCanvas w h k bm)) as [Hw [Hh Hf]].
  split; [exact Hw | split; [exact Hh |]].
  intros bm'. exact (Hf bm').
Qed.

Create HintDb drawing.

#[export] Hint Resolve drawing_id drawing_set_fillStyle drawing_set_strokeStyle
  drawing_set_font drawing_set_textAlign drawing_set_lineWidth drawing_beginPath
  drawing_moveTo drawing_lineTo drawing_arc drawing_fillRect drawing_fillText
  drawing_stroke drawing_fill drawing_if : drawing.

Ltac drawing_tac :=
  repeat first
    [ apply drawing_run; repeat (apply Forall_cons || apply Forall_nil)
    | apply drawing_forEach; intros
    | apply drawing_forEach_from; intros
    | apply drawing_with_size; intros
    | solve [auto with drawing]
    | match goal with |- drawing (let '(_, _) := ?p in _) => destruct p end ].

Lemma rebase_wipe c : rebase (bitmap c) (wipe c) = c.
Proof. destruct c as [w h k bm]. unfold rebase, wipe. cbn. now rewrite app_nil_r. Qed.

(** what a drawing command adds to the bitmap *)
Lemma drawing_bitmap k c : drawing k -> bitmap (k c) = bitmap c ++ bitmap (k (wipe c)).
Proof.
  intros Hk. destruct (Hk (wipe c)) as [_ [_ Hf]].
  rewrite <- (rebase_wipe c) at 1. now rewrite Hf.
Qed.

(** the whole state a drawing command leaves *)
Lemma drawing_state k c : drawing k -> k c = rebase (bitmap c) (k (wipe c)).
Proof.
  intros Hk. destruct (Hk (wipe c)) as [_ [_ Hf]].
  rewrite <- Hf. now rewrite rebase_wipe.
Qed.

Lemma drawing_height k c : drawing k -> height (k c) = height c.
Proof. intros Hk. apply (Hk c). Qed.

End CanvasFacts.

(** ** The log sheet *)

Module SheetFacts.
Import ELDLogSheet Frame CanvasFacts SheetParts.

Lemma drawing_draw_log log : drawing (draw_log log).
Proof. unfold draw_log. cbv zeta. drawing_tac. Qed.

Lemma drawing_draw_totals tot : drawing (draw_totals tot).
Proof. unfold draw_totals. cbv zeta. drawing_tac. Qed.

Lemma drawing_draw_grid : drawing draw_grid.
Proof. unfold draw_grid. drawing_tac. Qed.

Lemma drawing_draw_header t d : drawing (draw_header t d).
Proof. unfold draw_header. drawing_tac. Qed.

Lemma drawing_draw_footer d : drawing (draw_footer d).
Proof. unfold draw_footer. drawing_tac. Qed.

#[export] Hint Resolve drawing_draw_log drawing_draw_totals drawing_draw_grid
  drawing_draw_header drawing_draw_footer : drawing.

Lemma draw_log_bitmap log c : bitmap (draw_log log c) = bitmap c ++ log_prims log.
Proof.
  rewrite drawing_bitmap by auto with drawing. f_equal.
  unfold log_prims, draw_log. cbv zeta.
  generalize (hour_x (fractional_hour (start_time log))) as sx.
  generalize (hour_x (fractional_hour (end_time log))) as ex.
  generalize (row_y (duty_status log)) as y.
  generalize (getDutyStatusColor (status_name (duty_status log))) as color.
  intros color y ex sx.
  destruct (gt (ex - sx) (Fin 30));
    destruct sx, ex, y; destruct c as [w h [fs ss lw fn ta p] bm]; reflexivity.
Qed.

Lemma draw_logs_bitmap logs : forall c,
  bitmap (forEach logs draw_log c) = bitmap c ++ flat_map log_prims logs.
Proof.
  induction logs as [| log logs IH]; intros c.
  - simpl. now rewrite app_nil_r.
  - rewrite forEach_cons, IH, draw_log_bitmap. simpl. now rewrite app_assoc.
Qed.

Lemma totals_block_state tot c :
  totals_block tot c =
  mkCanvas (width c) (height c)
    (mkCtx "#000" "#000" 1 "12px Arial" "left" (path (ctx c)))
    (bitmap c ++ sheet_totals tot).
Proof.
  rewrite drawing_state by (unfold totals_block; drawing_tac).
  destruct c as [w h [fs ss lw fn ta p] bm]. reflexivity.
Qed.

Lemma draw_remarks_cons log logs remarkY c :
  draw_remarks (log :: logs) remarkY c =
  if str_truthy (remarks log) && lt remarkY (of_Z (height c) - Fin 30)
  then draw_remarks logs (remarkY + Fin 15)
         (run [ set_font "10px Arial";
                fillText [formatTime (start_time log); Lit ": "; Lit (remarks log)]
                  (Fin 50) remarkY ] c)
  else draw_remarks logs remarkY c.
Proof.
  unfold draw_remarks. cbn [fold_left]. destruct c as [w h k bm].
  cbn [draw_remark height].
  now destruct (str_truthy (remarks log) && lt remarkY (of_Z h - Fin 30)).
Qed.

Lemma draw_remarks_state logs : forall remarkY c,
  bitmap (draw_remarks logs remarkY c)
  = bitmap c
    ++ remark_prims (fillStyle (ctx c)) (textAlign (ctx c)) (height c) logs remarkY
  /\ width (draw_remarks logs remarkY c) = width c
  /\ height (draw_remarks logs remarkY c) = height c
  /\ fillStyle (ctx (draw_remarks logs remarkY c)) = fillStyle (ctx c)
  /\ textAlign (ctx (draw_remarks logs remarkY c)) = textAlign (ctx c).
Proof.
  induction logs as [| log logs IH]; intros remarkY c.
  - unfold draw_remarks. cbn. rewrite app_nil_r. tauto.
  - rewrite draw_remarks_cons. cbn [remark_prims].
    destruct (str_truthy (remarks log) && lt remarkY (of_Z (height c) - Fin 30)).
    + match goal with
      | |- context [draw_remarks logs ?y1 ?c1] =>
          destruct (IH y1 c1) as [Hb [Hw [Hh [Hfs Hta]]]]
      end.
      rewrite Hb, Hw, Hh, Hfs, Hta.
      destruct c as [w h [fs ss lw fn ta p] bm].
      destruct remarkY; cbn; rewrite <- ?app_assoc; tauto.
    + apply IH.
Qed.

Lemma draw_footer_bitmap d c :
  fillStyle (ctx c) = "#000"%string -> textAlign (ctx c) = "left"%string ->
  height c = 600%Z ->
  bitmap (draw_footer d c) = bitmap c ++ sheet_footer d.
Proof.
  intros Hfs Hta Hh.
  rewrite drawing_bitmap by auto with drawing. f_equal.
  destruct c as [w h [fs ss lw fn ta p] bm]. cbn in Hfs, Hta, Hh. subst.
  reflexivity.
Qed.

Lemma render_steps t d c :
  render t d c =
  draw_footer d
    (draw_remarks (eld_logs t) (gridY + gridHeight + Fin 30 + Fin 70)
       (totals_block (compute_totals (eld_logs t))
          (forEach (eld_logs t) draw_log
             (run [ set_fillStyle "white";
                    fillRect (Fin 0) (Fin 0) (of_Z 800) (of_Z 600);
                    draw_header t d; draw_grid ] (blank 800 600))))).
Proof.
  destruct c as [w h k bm].
  unfold render, dailyLogs, totals_block, run. cbv zeta. cbn [fold_left].
  cbn [set_height set_width blank].
  reflexivity.
Qed.

Lemma render_bitmap t d c :
  bitmap (render t d c) =
  sheet_top t d
  ++ flat_map log_prims (eld_logs t)
  ++ sheet_totals (compute_totals (eld_logs t))
  ++ sheet_remarks (eld_logs t)
  ++ sheet_footer d.
Proof.
  rewrite render_steps.
  set (c1 := run [ set_fillStyle "white";
                   fillRect (Fin 0) (Fin 0) (of_Z 800) (of_Z 600);
                   draw_header t d; draw_grid ] (blank 800 600)).
  set (c2 := forEach (eld_logs t) draw_log c1).
  set (c3 := totals_block (compute_totals (eld_logs t)) c2).
  set (c4 := draw_remarks (eld_logs t) (gridY + gridHeight + Fin 30 + Fin 70) c3).
  assert (height c2 = 600%Z) as Hh2.
  { unfold c2, c1. rewrite !drawing_height by drawing_tac. reflexivity. }
  assert (bitmap c2 = sheet_top t d ++ flat_map log_prims (eld_logs t)) as Hb2.
  { unfold c2, c1, sheet_top. rewrite draw_logs_bitmap. reflexivity. }
  assert (c3 = mkCanvas (width c2) 600
                 (mkCtx "#000" "#000" 1 "12px Arial" "left" (path (ctx c2)))
                 (bitmap c2 ++ sheet_totals (compute_totals (eld_logs t)))) as H3.
  { unfold c3. rewrite totals_block_state. now rewrite Hh2. }
  destruct (draw_remarks_state (eld_logs t) (gridY + gridHeight + Fin 30 + Fin 70) c3)
    as [Hb4 [Hw4 [Hh4 [Hfs4 Hta4]]]].
  fold c4 in Hb4, Hw4, Hh4, Hfs4, Hta4.
  rewrite draw_footer_bitmap.
  - rewrite Hb4, H3. cbn [bitmap ctx fillStyle textAlign height].
    rewrite Hb2. unfold sheet_remarks. now rewrite <- !app_assoc.
  - rewrite Hfs4, H3. reflexivity.
  - rewrite Hta4, H3. reflexivity.
  - rewrite Hh4, H3. reflexivity.
Qed.

(** *** The entries of other days *)

Lemma forEach_relabel f logs : forall c,
  forEach (map (relabel f) logs) draw_log c = forEach logs draw_log c.
Proof.
  induction logs as [| log logs IH]; intros c; [reflexivity |].
  cbn [map]. rewrite !forEach_cons. apply IH.
Qed.

Lemma compute_totals_relabel f logs :
  compute_totals (map (relabel f) logs) = compute_totals logs.
Proof.
  unfold compute_totals. generalize (mkTotals (Fin 0) (Fin 0) (Fin 0) (Fin 0)).
  induction logs as [| log logs IH]; intros acc; [reflexivity |].
  cbn [map fold_left]. apply IH.
Qed.

Lemma draw_remarks_relabel f logs : forall remarkY c,
  draw_remarks (map (relabel f) logs) remarkY c = draw_remarks logs remarkY c.
Proof.
  unfold draw_remarks. intros remarkY c. f_equal. generalize (c, remarkY).
  induction logs as [| log logs IH]; intros st; [reflexivity |].
  cbn [map fold_left]. apply IH.
Qed.

Lemma render_relabel f t d c : render (relabel_trip f t) d c = render t d c.
Proof.
  rewrite !render_steps. cbn [eld_logs relabel_trip].
  now rewrite forEach_relabel, compute_totals_relabel, draw_remarks_relabel.
Qed.

(** *** Totals *)

Lemma get_total_fold s logs : forall acc,
  get_total (fold_left add_to_totals logs acc) s
  = fold_left add
      (map duration_hours (filter (fun log => duty_status_eqb (duty_status log) s) logs))
      (get_total acc s).
Proof.
  induction logs as [| log logs IH]; intros acc; [reflexivity |].
  cbn [fold_left filter]. rewrite IH.
  unfold add_to_totals. destruct (duty_status log), s; reflexivity.
Qed.

Lemma get_total_sum s logs : get_total (compute_totals logs) s = status_sum s logs.
Proof. unfold compute_totals, status_sum. rewrite get_total_fold. now destruct s. Qed.

Lemma total_text_drawn s tot : In (total_text s (get_total tot s)) (sheet_totals tot).
Proof.
  destruct tot as [a b c d]. unfold sheet_totals, total_text.
  destruct s; cbn; tauto.
Qed.

(** *** Times that do not parse *)




End SheetFacts.

(** ** The route map *)

Module MapFacts.
Import MapView Frame CanvasFacts MapParts.

Lemma update_path_id c : update_path (fun p => p) c = c.
Proof. destruct c as [w h [fs ss lw fn ta p] bm]. reflexivity. Qed.

Lemma update_path_twice g1 g2 c :
  update_path g2 (update_path g1 c) = update_path (fun p => g2 (g1 p)) c.
Proof. destruct c as [w h [fs ss lw fn ta p] bm]. reflexivity. Qed.

Lemma path_only_id : path_only (fun c => c).
Proof. exists (fun p => p). intros c. now rewrite update_path_id. Qed.

Lemma path_only_moveTo x y : path_only (moveTo x y).
Proof. destruct x, y; try apply path_only_id. eexists. intros c. reflexivity. Qed.

Lemma path_only_lineTo x y : path_only (lineTo x y).
Proof. destruct x, y; try apply path_only_id. eexists. intros c. reflexivity. Qed.

Lemma path_only_forEach {A} (l : list A) body :
  (forall x, path_only (body x)) -> path_only (forEach l body).
Proof.
  intros Hb. induction l as [| x l [g Hg]]; [apply path_only_id |].
  destruct (Hb x) as [gx Hx].
  exists (fun p => g (gx p)). intros c.
  rewrite forEach_cons, Hg, Hx. apply update_path_twice.
Qed.

Lemma route_part_state p first rest w h fs ss lw fn ta P bm :
  route_part p first rest (mkCanvas w h (mkCtx fs ss lw fn ta P) bm)
  = mkCanvas w h (mkCtx fs "#3b82f6" 3 fn ta (route_path p first rest))
      (bm ++ stroke_prims "#3b82f6" 3 (route_path p first rest)).
Proof.
  assert (path_only (let '(startX, startY) := toCanvas p (fst first) (snd first) in
                     moveTo startX startY)) as [gM HM]
    by (destruct (toCanvas p (fst first) (snd first)); apply path_only_moveTo).
  assert (path_only (forEach rest
            (fun c => let '(x, y) := toCanvas p (fst c) (snd c) in lineTo x y))) as [gL HL].
  { apply path_only_forEach. intros x.
    destruct (toCanvas p (fst x) (snd x)). apply path_only_lineTo. }
  unfold route_path, route_part, run. cbn [fold_left].
  rewrite !HL, !HM. unfold stroke_prims. cbn -[traced].
  destruct (traced (gL (gM []))); cbn; rewrite ?app_nil_r; reflexivity.
Qed.

Lemma drawing_drawMarker p lat lng color label :
  drawing (drawMarker p lat lng color label).
Proof. unfold drawMarker. destruct (toCanvas p lat lng). drawing_tac. Qed.

Lemma drawMarker_state p lat lng color label w h fs ss lw fn ta P bm :
  drawMarker p lat lng color label (mkCanvas w h (mkCtx fs ss lw fn ta P) bm)
  = mkCanvas w h
      (mkCtx "#1f2937" ss lw "bold 12px sans-serif" "center" (marker_path p lat lng))
      (bm ++ marker_prims p lat lng color label).
Proof.
  rewrite drawing_state by apply drawing_drawMarker.
  unfold marker_prims, marker_path, drawMarker.
  destruct (toCanvas p lat lng) as [x y]. destruct x, y; reflexivity.
Qed.

Lemma stops_state p stops : forall index w h ss lw P bm,
  forEach_from index stops (draw_rest_stop p)
    (mkCanvas w h (mkCtx "#1f2937" ss lw "bold 12px sans-serif" "center" P) bm)
  = mkCanvas w h
      (mkCtx "#1f2937" ss lw "bold 12px sans-serif" "center" (stops_path p stops P))
      (bm ++ stops_prims p stops index).
Proof.
  induction stops as [| stop stops IH]; intros index w h ss lw P bm.
  - cbn. now rewrite app_nil_r.
  - cbn [forEach_from stops_prims stops_path].
    unfold draw_rest_stop at 2. fold (stop_drawn stop). fold (stop_label index).
    destruct (stop_drawn stop).
    + rewrite drawMarker_state, IH. now rewrite app_assoc.
    + rewrite IH. reflexivity.
Qed.

Lemma inject_Z_nonzero z : (0 < z)%Z -> Qeq_bool (inject_Z z) 0 = false.
Proof.
  intros Hz. destruct (Qeq_bool (inject_Z z) 0) eqn:E; [| reflexivity].
  apply Qeq_bool_eq in E. unfold Qeq in E. cbn in E. lia.
Qed.

Lemma clearRect_full w h k bm :
  (0 < w)%Z -> (0 < h)%Z ->
  clearRect (Fin 0) (Fin 0) (of_Z w) (of_Z h) (mkCanvas w h k bm) = mkCanvas w h k [].
Proof.
  intros Hw Hh. unfold clearRect, of_Z, covers.
  rewrite !inject_Z_nonzero by assumption.
  assert (Qle_bool (inject_Z w) (0 + inject_Z w) = true) as -> by (apply Qle_bool_iff; lra).
  assert (Qle_bool (inject_Z h) (0 + inject_Z h) = true) as -> by (apply Qle_bool_iff; lra).
  reflexivity.
Qed.

Lemma fillRect_full w h k bm :
  (0 < w)%Z -> (0 < h)%Z ->
  fillRect (Fin 0) (Fin 0) (of_Z w) (of_Z h) (mkCanvas w h k bm)
  = mkCanvas w h k (bm ++ [FillRect (fillStyle k) 0 0 (inject_Z w) (inject_Z h)]).
Proof.
  intros Hw Hh. unfold fillRect, of_Z.
  rewrite !inject_Z_nonzero by assumption. reflexivity.
Qed.

Lemma placeholder_state w h fs ss lw fn ta P bm :
  placeholder (of_Z w) (of_Z h) (mkCanvas w h (mkCtx fs ss lw fn ta P) bm)
  = mkCanvas w h (mkCtx "#64748b" ss lw "16px sans-serif" "center" P)
      (bm ++ placeholder_prims w h).
Proof. reflexivity. Qed.

Lemma draw_route_state t first rest w h fs ss lw fn ta P bm :
  route_coordinates t = first :: rest ->
  draw_route t (of_Z w) (of_Z h) (mkCanvas w h (mkCtx fs ss lw fn ta P) bm)
  = mkCanvas w h
      (mkCtx "#1f2937" "#3b82f6" 3 "bold 12px sans-serif" "center" (final_path t w h))
      (bm ++ route_prims t w h).
Proof.
  intros Hr. unfold draw_route, route_prims, final_path. rewrite Hr. cbv zeta.
  set (p := find_bounds (first :: rest) (of_Z w) (of_Z h)).
  change (run (?a :: ?b :: ?c :: ?d :: ?e :: ?f :: ?tl) ?x)
    with (run tl (route_part p first rest x)).
  rewrite route_part_state.
  unfold run. cbn [fold_left]. rewrite !drawMarker_state.
  unfold forEachi. rewrite stops_state. now rewrite <- !app_assoc.
Qed.

Lemma render_placeholder_state tripData w h fs ss lw fn ta P bm :
  (0 < w)%Z -> (0 < h)%Z ->
  match tripData with None => True | Some t => route_coordinates t = [] end ->
  render tripData (mkCanvas w h (mkCtx fs ss lw fn ta P) bm)
  = mkCanvas w h (mkCtx "#64748b" ss lw "16px sans-serif" "center" P)
      (map_prims tripData w h).
Proof.
  intros Hw Hh Hnone. unfold render, with_size, run. cbv zeta. cbn [fold_left].
  rewrite clearRect_full by assumption. cbn [set_fillStyle with_ctx].
  rewrite fillRect_full by assumption. cbn [fillStyle app].
  unfold map_prims.
  destruct tripData as [t |].
  - unfold draw_route, route_prims. rewrite Hnone. now rewrite placeholder_state.
  - now rewrite placeholder_state.
Qed.

Lemma render_route_state t first rest w h k bm :
  (0 < w)%Z -> (0 < h)%Z ->
  route_coordinates t = first :: rest ->
  render (Some t) (mkCanvas w h k bm)
  = mkCanvas w h
      (mkCtx "#1f2937" "#3b82f6" 3 "bold 12px sans-serif" "center" (final_path t w h))
      (map_prims (Some t) w h).
Proof.
  intros Hw Hh Hr. destruct k as [fs ss lw fn ta P].
  unfold render, with_size, run. cbv zeta. cbn [fold_left].
  rewrite clearRect_full by assumption. cbn [set_fillStyle with_ctx].
  rewrite fillRect_full by assumption. cbn [fillStyle app].
  now rewrite (draw_route_state t first rest).
Qed.

Lemma render_idempotent tripData c :
  (0 < width c)%Z -> (0 < height c)%Z ->
  render tripData (render tripData c) = render tripData c.
Proof.
  destruct c as [w h [fs ss lw fn ta P] bm]. cbn [width height]. intros Hw Hh.
  destruct tripData as [t |].
  - destruct (route_coordinates t) as [| first rest] eqn:Hr.
    + rewrite !(render_placeholder_state (Some t)) by assumption. reflexivity.
    + rewrite !(render_route_state t first rest) by assumption. reflexivity.
  - rewrite !(render_placeholder_state None) by (assumption || exact I). reflexivity.
Qed.

Lemma render_map_bitmap tripData c :
  (0 < width c)%Z -> (0 < height c)%Z ->
  bitmap (render tripData c) = map_prims tripData (width c) (height c).
Proof.
  destruct c as [w h [fs ss lw fn ta P] bm]. cbn [width height]. intros Hw Hh.
  destruct tripData as [t |].
  - destruct (route_coordinates t) as [| first rest] eqn:Hr.
    + rewrite (render_placeholder_state (Some t)) by assumption. reflexivity.
    + rewrite (render_route_state t first rest) by assumption. reflexivity.
  - rewrite (render_placeholder_state None) by (assumption || exact I). reflexivity.
Qed.

(** where a marker is drawn *)
Lemma marker_prims_finite p lat lng color label x y :
  toCanvas p lat lng = (Fin x, Fin y) ->
  marker_prims p lat lng color label
  = [ Fill color [[Arc x y 8 (Rad 0) (PiTimes 2)]];
      Fill "white" [[Arc x y 4 (Rad 0) (PiTimes 2)]];
      FillText "#1f2937" "bold 12px sans-serif" "center" label x (y - 15)%Q ].
Proof.
  intros Hxy. unfold marker_prims, drawMarker. rewrite Hxy. reflexivity.
Qed.

End MapFacts.


(** * The claims of the specification *)

Import UniqueDates DatesSpec ProjectionSpec Frame SheetParts MapParts.

(** C4.  The day partitioner returns the strictly ascending (hence
    duplicate-free) sequence of the dates of the trip's entries: it is
    ascending for the code-unit order, has no duplicate, has exactly the
    dates of the entries as elements, and is the only such sequence; it is
    empty without a trip or without entries; partitioning its own result
    changes nothing. *)
Theorem C4_unique_dates_sorted_and_unique :
  forall tripData : option TripResponse,
    StronglySorted str_lt (getUniqueDates tripData)
    /\ NoDup (getUniqueDates tripData)
    /\ (forall d, In d (getUniqueDates tripData) <-> In d (log_dates tripData))
    /\ (forall r, StronglySorted str_lt r ->
                  (forall d, In d r <-> In d (log_dates tripData)) ->
                  r = getUniqueDates tripData)
    /\ (log_dates tripData = [] -> getUniqueDates tripData = [])
    /\ getUniqueDates None = []
    /\ unique_sorted (getUniqueDates tripData) = getUniqueDates tripData.
Proof.
  intros tripData.
  assert (getUniqueDates tripData = unique_sorted (log_dates tripData)) as ->
    by (destruct tripData; reflexivity).
  split; [apply UniqueDatesFacts.unique_sorted_ascending |].
  split; [apply UniqueDatesFacts.unique_sorted_nodup |].
  split; [intros d; apply UniqueDatesFacts.unique_sorted_in |].
  split.
  { intros r Hr Hin. apply UniqueDatesFacts.ascending_unique.
    - exact Hr.
    - apply UniqueDatesFacts.unique_sorted_ascending.
    - intros x. rewrite Hin. symmetry. apply UniqueDatesFacts.unique_sorted_in. }
  split; [intros ->; reflexivity |].
  split; [reflexivity |].
  apply UniqueDatesFacts.unique_sorted_idempotent.
Qed.

(** C2.  Over a non-empty route of finite points, the bounds the projection
    captures are the least and greatest latitude and longitude, and a point
    is sent to [x = P + (lng - minLng) / lngRange * (W - 2P)],
    [y = P + (maxLat - lat) / latRange * (H - 2P)] with [P = 40], each range
    being the difference of its bounds, or 1 when that difference is zero. *)
Theorem C2_projection_formula :
  forall (pts : list (Q * Q)) (W H : Q),
    pts <> [] ->
    exists minLat maxLat minLng maxLng : Q,
      is_min minLat (map fst pts) /\ is_max maxLat (map fst pts)
      /\ is_min minLng (map snd pts) /\ is_max maxLng (map snd pts)
      /\ forall lat lng : Q,
           MapView.toCanvas (MapView.find_bounds (finite_route pts) (Fin W) (Fin H))
             (Fin lat) (Fin lng)
           = (Fin (spec_x minLng (range_or_one (maxLng - minLng)) W lng),
              Fin (spec_y maxLat (range_or_one (maxLat - minLat)) H lat)).
Proof.
  intros [| p pts] W H Hne; [congruence |].
  exists (qmin_from (fst p) (map fst pts)), (qmax_from (fst p) (map fst pts)),
         (qmin_from (snd p) (map snd pts)), (qmax_from (snd p) (map snd pts)).
  split; [apply ProjectionFacts.qmin_is_min |].
  split; [apply ProjectionFacts.qmax_is_max |].
  split; [apply ProjectionFacts.qmin_is_min |].
  split; [apply ProjectionFacts.qmax_is_max |].
  intros lat lng.
  rewrite ProjectionFacts.find_bounds_finite.
  apply ProjectionFacts.toCanvas_finite.
Qed.

Lemma C2_projection_formula_witness :
  [(6.5, 3.4); (7.3, 3.9)]%Q <> []
  /\ exists minLat maxLat minLng maxLng : Q,
       is_min minLat (map fst [(6.5, 3.4); (7.3, 3.9)]%Q)
       /\ is_max maxLat (map fst [(6.5, 3.4); (7.3, 3.9)]%Q)
       /\ is_min minLng (map snd [(6.5, 3.4); (7.3, 3.9)]%Q)
       /\ is_max maxLng (map snd [(6.5, 3.4); (7.3, 3.9)]%Q)
       /\ forall lat lng : Q,
            MapView.toCanvas
              (MapView.find_bounds (finite_route [(6.5, 3.4); (7.3, 3.9)]%Q)
                 (Fin 600) (Fin 400))
              (Fin lat) (Fin lng)
            = (Fin (spec_x minLng (range_or_one (maxLng - minLng)) 600 lng),
               Fin (spec_y maxLat (range_or_one (maxLat - minLat)) 400 lat)).
Proof.
  split; [discriminate |].
  apply (C2_projection_formula [(6.5, 3.4); (7.3, 3.9)]%Q 600 400). discriminate.
Defined.

(** C3.  On the canvas of the map (600 by 400), a point whose latitude and
    longitude lie within the bounds of the route is projected to a finite
    position inside the surface: [0 <= x <= 600] and [0 <= y <= 400]. *)
Theorem C3_projection_within_surface :
  forall (pts : list (Q * Q)) (minLat maxLat minLng maxLng lat lng : Q),
    is_min minLat (map fst pts) -> is_max maxLat (map fst pts) ->
    is_min minLng (map snd pts) -> is_max maxLng (map snd pts) ->
    (minLat <= lat)%Q -> (lat <= maxLat)%Q ->
    (minLng <= lng)%Q -> (lng <= maxLng)%Q ->
    exists x y : Q,
      MapView.toCanvas
        (MapView.find_bounds (finite_route pts)
           (of_Z MapView.canvas_width) (of_Z MapView.canvas_height))
        (Fin lat) (Fin lng) = (Fin x, Fin y)
      /\ (0 <= x)%Q /\ (x <= inject_Z MapView.canvas_width)%Q
      /\ (0 <= y)%Q /\ (y <= inject_Z MapView.canvas_height)%Q.
Proof.
  intros [| p pts] minLat maxLat minLng maxLng lat lng
    [HinA HminLat] [HinB HmaxLat] [HinC HminLng] [HinD HmaxLng] H1 H2 H3 H4;
    [contradiction |].
  unfold of_Z. rewrite ProjectionFacts.find_bounds_finite, ProjectionFacts.toCanvas_finite.
  eexists. eexists. split; [reflexivity |].
  destruct (ProjectionFacts.qmin_is_min (fst p) (map fst pts)) as [Ia La].
  destruct (ProjectionFacts.qmax_is_max (fst p) (map fst pts)) as [Ib Lb].
  destruct (ProjectionFacts.qmin_is_min (snd p) (map snd pts)) as [Ic Lc].
  destruct (ProjectionFacts.qmax_is_max (snd p) (map snd pts)) as [Id Ld].
  pose proof (La _ HinA). pose proof (Lb _ HinB).
  pose proof (Lc _ HinC). pose proof (Ld _ HinD).
  change (inject_Z MapView.canvas_width) with 600%Q.
  change (inject_Z MapView.canvas_height) with 400%Q.
  destruct (ProjectionFacts.spec_within
              (qmin_from (snd p) (map snd pts)) (qmax_from (snd p) (map snd pts)) lng 600)
    as [Hx0 Hx1]; try lra.
  destruct (ProjectionFacts.spec_within_inverted
              (qmin_from (fst p) (map fst pts)) (qmax_from (fst p) (map fst pts)) lat 400)
    as [Hy0 Hy1]; try lra.
  cbv zeta in Hx0, Hx1, Hy0, Hy1.
  unfold spec_x, spec_y. repeat split; lra.
Qed.

Lemma C3_projection_within_surface_witness :
  exists x y : Q,
    MapView.toCanvas
      (MapView.find_bounds (finite_route [(6.5, 3.4); (7.3, 3.9)]%Q)
         (of_Z MapView.canvas_width) (of_Z MapView.canvas_height))
      (Fin 7) (Fin 3.5) = (Fin x, Fin y)
    /\ (0 <= x)%Q /\ (x <= inject_Z MapView.canvas_width)%Q
    /\ (0 <= y)%Q /\ (y <= inject_Z MapView.canvas_height)%Q.
Proof.
  apply (C3_projection_within_surface [(6.5, 3.4); (7.3, 3.9)]%Q 6.5 7.3 3.4 3.9 7 3.5).
  - split; [simpl; tauto | intros x Hx; simpl in Hx; destruct Hx as [<- | [<- | []]]; lra].
  - split; [simpl; tauto | intros x Hx; simpl in Hx; destruct Hx as [<- | [<- | []]]; lra].
  - split; [simpl; tauto | intros x Hx; simpl in Hx; destruct Hx as [<- | [<- | []]]; lra].
  - split; [simpl; tauto | intros x Hx; simpl in Hx; destruct Hx as [<- | [<- | []]]; lra].
  - lra.
  - lra.
  - lra.
  - lra.
Defined.

(** C1.  The log sheet is drawn from every entry of the trip, whatever the
    date it is drawn for: the entries it processes are the whole of
    [eld_logs]; its segments, totals and remark lines are those of the whole
    collection; and filing the entries under other dates changes nothing of
    the rendered sheet. *)
Theorem C1_sheet_draws_every_entry :
  forall (t : TripResponse) (logDate : string) (c : canvas),
    ELDLogSheet.dailyLogs t logDate = eld_logs t
    /\ bitmap (ELDLogSheet.render t logDate c)
       = sheet_top t logDate
         ++ flat_map log_prims (eld_logs t)
         ++ sheet_totals (ELDLogSheet.compute_totals (eld_logs t))
         ++ sheet_remarks (eld_logs t)
         ++ sheet_footer logDate
    /\ forall f : string -> string,
         ELDLogSheet.render (relabel_trip f t) logDate c
         = ELDLogSheet.render t logDate c.
Proof.
  intros t logDate c.
  split; [reflexivity |].
  split; [apply SheetFacts.render_bitmap |].
  intros f. apply SheetFacts.render_relabel.
Qed.

(** C5.  For each of the four statuses, the total the sheet shows is the
    sum of the [duration_hours] of the processed entries of that status
    (the stored values, added in input order), and it is 0 when there is no
    entry. *)
Theorem C5_totals_are_sums_of_durations :
  forall (t : TripResponse) (logDate : string) (c : canvas) (s : duty_status_t),
    ELDLogSheet.get_total
      (ELDLogSheet.compute_totals (ELDLogSheet.dailyLogs t logDate)) s
    = status_sum s (ELDLogSheet.dailyLogs t logDate)
    /\ In (total_text s (status_sum s (ELDLogSheet.dailyLogs t logDate)))
          (bitmap (ELDLogSheet.render t logDate c))
    /\ ELDLogSheet.get_total (ELDLogSheet.compute_totals []) s = Fin 0.
Proof.
  intros t logDate c s.
  split; [apply SheetFacts.get_total_sum |].
  split; [| now destruct s].
  rewrite SheetFacts.render_bitmap.
  rewrite <- SheetFacts.get_total_sum.
  apply in_or_app; right. apply in_or_app; right. apply in_or_app; left.
  apply SheetFacts.total_text_drawn.
Qed.



(** C9.  For the single entry driving, 08:00 to 10:30, 2.5 hours: the
    times are the fractional hours 8 and 10.5; the entry draws exactly one
    segment, in red, from the position of hour 8 to the position of hour
    10.5 at the mid-height of row 2 (rows: off_duty 0, sleeper_berth 1,
    driving 2, on_duty 3); the Driving total is 2.5 and the other three
    totals are 0. *)
Theorem C9_single_driving_entry :
  forall (t : TripResponse) (logDate : string) (c : canvas)
         (i : Z) (date note : string),
    eld_logs t = [mkELDLog i date driving "08:00" "10:30" (Fin 2.5) note] ->
    exists h0 h1 x0 x1 y : Q,
      ELDLogSheet.fractional_hour "08:00" = Fin h0 /\ (h0 == 8)%Q
      /\ ELDLogSheet.fractional_hour "10:30" = Fin h1 /\ (h1 == 10.5)%Q
      /\ ELDLogSheet.hour_x (Fin h0) = Fin x0 /\ ELDLogSheet.hour_x (Fin h1) = Fin x1
      /\ (ELDLogSheet.statusRow off_duty = Fin 0
          /\ ELDLogSheet.statusRow sleeper_berth = Fin 1
          /\ ELDLogSheet.statusRow driving = Fin 2
          /\ ELDLogSheet.statusRow on_duty = Fin 3)
      /\ ELDLogSheet.row_y driving = Fin y
      /\ (y == 110 + 2 * 300 / 4 + 300 / 8)%Q
      /\ getDutyStatusColor "driving" = "#ef4444"%string
      /\ filter is_stroke (flat_map log_prims (eld_logs t))
         = [Stroke "#ef4444" 3 [[Pt x0 y; Pt x1 y]]]
      /\ bitmap (ELDLogSheet.render t logDate c)
         = sheet_top t logDate
           ++ flat_map log_prims (eld_logs t)
           ++ sheet_totals (ELDLogSheet.mkTotals (Fin 0) (Fin 0) (Fin 2.5) (Fin 0))
           ++ sheet_remarks (eld_logs t)
           ++ sheet_footer logDate.
Proof.
  intros t logDate c i date note Hlogs.
  do 5 eexists.
  split; [reflexivity |]. split; [reflexivity |].
  split; [reflexivity |]. split; [reflexivity |].
  split; [reflexivity |]. split; [reflexivity |].
  split; [repeat split |].
  split; [reflexivity |]. split; [reflexivity |].
  split; [reflexivity |].
  split; [rewrite Hlogs; reflexivity |].
  rewrite SheetFacts.render_bitmap, Hlogs. reflexivity.
Qed.

Lemma C9_single_driving_entry_witness :
  exists h0 h1 x0 x1 y : Q,
    ELDLogSheet.fractional_hour "08:00" = Fin h0 /\ (h0 == 8)%Q
    /\ ELDLogSheet.fractional_hour "10:30" = Fin h1 /\ (h1 == 10.5)%Q
    /\ ELDLogSheet.hour_x (Fin h0) = Fin x0 /\ ELDLogSheet.hour_x (Fin h1) = Fin x1
    /\ (ELDLogSheet.statusRow off_duty = Fin 0
        /\ ELDLogSheet.statusRow sleeper_berth = Fin 1
        /\ ELDLogSheet.statusRow driving = Fin 2
        /\ ELDLogSheet.statusRow on_duty = Fin 3)
    /\ ELDLogSheet.row_y driving = Fin y
    /\ (y == 110 + 2 * 300 / 4 + 300 / 8)%Q
    /\ getDutyStatusColor "driving" = "#ef4444"%string
    /\ filter is_stroke (flat_map log_prims (eld_logs (sample_trip [driving_entry])))
       = [Stroke "#ef4444" 3 [[Pt x0 y; Pt x1 y]]]
    /\ bitmap (ELDLogSheet.render (sample_trip [driving_entry]) "2024-01-01" (blank 300 150))
       = sheet_top (sample_trip [driving_entry]) "2024-01-01"
         ++ flat_map log_prims (eld_logs (sample_trip [driving_entry]))
         ++ sheet_totals (ELDLogSheet.mkTotals (Fin 0) (Fin 0) (Fin 2.5) (Fin 0))
         ++ sheet_remarks (eld_logs (sample_trip [driving_entry]))
         ++ sheet_footer "2024-01-01".
Proof.
  apply (C9_single_driving_entry (sample_trip [driving_entry]) "2024-01-01"
           (blank 300 150) 1 "2024-01-01" "").
  reflexivity.
Defined.

(** C7.  A rest stop at latitude 0 (or longitude 0) is not drawn, although
    its location is finite: its step of the loop leaves the canvas as it
    is, and the map of a trip with one rest stop on the equator is the map
    of the same trip without rest stop.  The guard of the loop tests the
    truthiness of the coordinates, and 0 is falsy; the markers drawn without
    that guard do show a location at latitude 0 (here the current one). *)
Theorem C7_rest_stop_at_latitude_zero_is_skipped :
  isFinite (lat (location equator_stop)) = true
  /\ isFinite (lng (location equator_stop)) = true
  /\ In equator_stop (rest_stops equator_trip)
  /\ MapView.render (Some equator_trip) (blank 600 400)
     = MapView.render (Some no_stop_trip) (blank 600 400)
  /\ stops_prims
       (MapView.find_bounds (route_coordinates equator_trip) (of_Z 600) (of_Z 400))
       (rest_stops equator_trip) 0 = []
  /\ (forall (p : MapView.projection) (stop : RestStop) (index : nat) (c : canvas),
        lat (location stop) = Fin 0 \/ lng (location stop) = Fin 0 ->
        MapView.draw_rest_stop p stop index c = c)
  /\ lat (current_location equator_trip) = Fin 0
  /\ In (Fill "#10b981" [[Arc 40 360 8 (Rad 0) (PiTimes 2)]])
        (bitmap (MapView.render (Some equator_trip) (blank 600 400))).
Proof.
  split; [reflexivity |]. split; [reflexivity |].
  split; [now left |]. split; [reflexivity |]. split; [reflexivity |].
  split.
  - intros p stop index c [H | H]; unfold MapView.draw_rest_stop; rewrite H.
    + reflexivity.
    + now rewrite andb_false_r.
  - split; [reflexivity |]. cbn. tauto.
Qed.

(** C8.  Rendering twice is rendering once.  On a canvas with pixels the
    map renderer leaves, after a second call with the same input, the
    canvas the first call left, and what the bitmap holds is a function of
    the input and of the size of the canvas alone; the sheet renderer
    leaves the same canvas whatever canvas it is given, hence also after a
    second call. *)
Theorem C8_rendering_twice_is_rendering_once :
  forall (tripData : option TripResponse) (t : TripResponse) (logDate : string)
         (c : canvas),
    (0 < width c)%Z -> (0 < height c)%Z ->
    MapView.render tripData (MapView.render tripData c) = MapView.render tripData c
    /\ bitmap (MapView.render tripData c) = map_prims tripData (width c) (height c)
    /\ ELDLogSheet.render t logDate (ELDLogSheet.render t logDate c)
       = ELDLogSheet.render t logDate c
    /\ (forall c' : canvas,
          ELDLogSheet.render t logDate c' = ELDLogSheet.render t logDate c)
    /\ MapView.effect tripData (MapView.effect tripData (Some c))
       = MapView.effect tripData (Some c)
    /\ ELDLogSheet.effect t logDate (ELDLogSheet.effect t logDate (Some c))
       = ELDLogSheet.effect t logDate (Some c).
Proof.
  intros tripData t logDate c Hw Hh.
  assert (forall c1 c2, ELDLogSheet.render t logDate c1 = ELDLogSheet.render t logDate c2)
    as Hsheet by (intros c1 c2; now rewrite !SheetFacts.render_steps).
  split; [now apply MapFacts.render_idempotent |].
  split; [now apply MapFacts.render_map_bitmap |].
  split; [apply Hsheet |].
  split; [intros c'; apply Hsheet |].
  split.
  - cbn [MapView.effect]. f_equal. now apply MapFacts.render_idempotent.
  - cbn [ELDLogSheet.effect]. f_equal. apply Hsheet.
Qed.

Lemma C8_rendering_twice_is_rendering_once_witness :
  MapView.render (Some far_trip) (MapView.render (Some far_trip) (blank 600 400))
  = MapView.render (Some far_trip) (blank 600 400)
  /\ bitmap (MapView.render (Some far_trip) (blank 600 400))
     = map_prims (Some far_trip) (width (blank 600 400)) (height (blank 600 400))
  /\ ELDLogSheet.render (sample_trip [driving_entry]) "2024-01-01"
       (ELDLogSheet.render (sample_trip [driving_entry]) "2024-01-01" (blank 600 400))
     = ELDLogSheet.render (sample_trip [driving_entry]) "2024-01-01" (blank 600 400)
  /\ (forall c' : canvas,
        ELDLogSheet.render (sample_trip [driving_entry]) "2024-01-01" c'
        = ELDLogSheet.render (sample_trip [driving_entry]) "2024-01-01" (blank 600 400))
  /\ MapView.effect (Some far_trip) (MapView.effect (Some far_trip) (Some (blank 600 400)))
     = MapView.effect (Some far_trip) (Some (blank 600 400))
  /\ ELDLogSheet.effect (sample_trip [driving_entry]) "2024-01-01"
       (ELDLogSheet.effect (sample_trip [driving_entry]) "2024-01-01" (Some (blank 600 400)))
     = ELDLogSheet.effect (sample_trip [driving_entry]) "2024-01-01" (Some (blank 600 400)).
Proof.
  apply (C8_rendering_twice_is_rendering_once (Some far_trip)
           (sample_trip [driving_entry]) "2024-01-01" (blank 600 400)).
  - reflexivity.
  - reflexivity.
Defined.

(** C10.  The projection of the map is built from the route alone: over a
    non-empty route the bitmap is the background, the polyline and the
    markers of the current, pickup and dropoff locations and of the rest
    stops, all placed by the projection whose bounds are those of
    [route_coordinates]; a marker with a finite position is drawn there.
    So a location outside the bounds of the route is drawn outside the
    surface: for a route from (0, 0) to (1, 1) and a current location at
    (5, 5) on the 600 by 400 canvas, the Current marker is at an [x] beyond
    600 and a [y] below 0. *)
Theorem C10_markers_outside_the_surface :
  (forall (t : TripResponse) (first : num * num) (rest : list (num * num))
          (w h : Z) (k : ctx2d) (bm : list prim),
      (0 < w)%Z -> (0 < h)%Z ->
      route_coordinates t = first :: rest ->
      let p := MapView.find_bounds (route_coordinates t) (of_Z w) (of_Z h) in
      bitmap (MapView.render (Some t) (mkCanvas w h k bm))
      = FillRect "#f8fafc" 0 0 (inject_Z w) (inject_Z h)
        :: stroke_prims "#3b82f6" 3 (route_path p first rest)
        ++ marker_prims p (lat (current_location t)) (lng (current_location t))
             "#10b981" [Lit "Current"]
        ++ marker_prims p (lat (pickup_location t)) (lng (pickup_location t))
             "#f59e0b" [Lit "Pickup"]
        ++ marker_prims p (lat (dropoff_location t)) (lng (dropoff_location t))
             "#ef4444" [Lit "Dropoff"]
        ++ stops_prims p (rest_stops t) 0)
  /\ (forall (p : MapView.projection) (lat lng : num) (color : string) (label : text)
             (x y : Q),
        MapView.toCanvas p lat lng = (Fin x, Fin y) ->
        marker_prims p lat lng color label
        = [ Fill color [[Arc x y 8 (Rad 0) (PiTimes 2)]];
            Fill "white" [[Arc x y 4 (Rad 0) (PiTimes 2)]];
            FillText "#1f2937" "bold 12px sans-serif" "center" label x (y - 15)%Q ])
  /\ exists x y : Q,
       is_max 1%Q (map fst [(0, 0); (1, 1)]%Q)
       /\ is_max 1%Q (map snd [(0, 0); (1, 1)]%Q)
       /\ route_coordinates far_trip = finite_route [(0, 0); (1, 1)]%Q
       /\ current_location far_trip = mkLocation (Fin 5) (Fin 5)
       /\ MapView.toCanvas
            (MapView.find_bounds (route_coordinates far_trip) (of_Z 600) (of_Z 400))
            (Fin 5) (Fin 5) = (Fin x, Fin y)
       /\ In (Fill "#10b981" [[Arc x y 8 (Rad 0) (PiTimes 2)]])
             (bitmap (MapView.render (Some far_trip) (blank 600 400)))
       /\ (600 < x)%Q /\ (y < 0)%Q.
Proof.
  split; [| split].
  - intros t first rest w h k bm Hw Hh Hr p. subst p.
    rewrite (MapFacts.render_route_state t first rest) by assumption.
    cbn [bitmap]. unfold map_prims, route_prims. rewrite Hr. reflexivity.
  - intros p lat lng color label x y Hxy. now apply MapFacts.marker_prims_finite.
  - do 2 eexists.
    split; [split; [simpl; tauto | intros v Hv; simpl in Hv;
                                   destruct Hv as [<- | [<- | []]]; lra] |].
    split; [split; [simpl; tauto | intros v Hv; simpl in Hv;
                                   destruct Hv as [<- | [<- | []]]; lra] |].
    split; [reflexivity |]. split; [reflexivity |].
    split; [reflexivity |].
    split; [cbn; tauto |].
    split; reflexivity.
Qed.

(** * Further properties of the code *)

Module AppFacts.
Import App.

Lemma perm3 {A} (a b c : A) l :
  Permutation l [a; b; c] ->
  l = [a; b; c] \/ l = [a; c; b] \/ l = [b; a; c]
  \/ l = [b; c; a] \/ l = [c; a; b] \/ l = [c; b; a].
Proof.
  intros H. pose proof (Permutation_length H) as Hlen.
  destruct l as [| x [| y [| z [| ? ?]]]]; try discriminate Hlen.
  assert (In x [a; b; c]) as Hx by (eapply Permutation_in; [exact H | now left]).
  destruct Hx as [<- | [<- | [<- | []]]].
  - apply Permutation_cons_inv, Permutation_length_2_inv in H.
    destruct H as [E | E]; inversion E; subst; tauto.
  - assert (Permutation (b :: [y; z]) (b :: [a; c])) as H'
      by (etransitivity; [exact H | apply perm_swap]).
    apply Permutation_cons_inv, Permutation_length_2_inv in H'.
    destruct H' as [E | E]; inversion E; subst; tauto.
  - assert (Permutation (c :: [y; z]) (c :: [a; b])) as H'.
    { etransitivity; [exact H |].
      etransitivity; [apply perm_skip, perm_swap | apply perm_swap]. }
    apply Permutation_cons_inv, Permutation_length_2_inv in H'.
    destruct H' as [E | E]; inversion E; subst; tauto.
Qed.

Lemma or_else_not_nan a q : or_else a (Fin q) <> NaN.
Proof. unfold or_else. destruct a; cbn; try discriminate. destruct (negb _); discriminate. Qed.

End AppFacts.

Module SheetMore.
Import ELDLogSheet SheetParts SheetViews.

(** linear arithmetic after the divisions by constants are made products *)
Ltac const_div :=
  unfold Qdiv in *;
  repeat match goal with
         | |- context [Qinv (?n # ?d)] =>
             let v := eval vm_compute in (Qinv (n # d)) in
             progress change (Qinv (n # d)) with v
         | H : context [Qinv (?n # ?d)] |- _ =>
             let v := eval vm_compute in (Qinv (n # d)) in
             progress change (Qinv (n # d)) with v in H
         end.

Ltac lra_div := const_div; lra.

Lemma hour_x_fin h : hour_x (Fin h) = Fin (50 + h / 24 * 700).
Proof. reflexivity. Qed.

Lemma row_y_fin s : exists r y : Q,
  statusRow s = Fin r /\ row_y s = Fin y /\ (y == 110 + r * 75 + 75 / 2)%Q
  /\ (0 <= r)%Q /\ (r <= 3)%Q.
Proof.
  destruct s; do 2 eexists; (split; [reflexivity |]); (split; [reflexivity |]);
    split; try reflexivity; split; lra.
Qed.

(** *** [split] *)

Lemma split_colon_free a : colon_free a = true -> split ":" a = [a].
Proof.
  induction a as [| c a IH]; [reflexivity |]. cbn. intros H.
  apply andb_prop in H. destruct H as [Hc Ha].
  apply negb_true_iff in Hc. rewrite Hc, (IH Ha). reflexivity.
Qed.

Lemma split_append a b :
  colon_free a = true -> split ":" (a ++ String ":" b)%string = a :: split ":" b.
Proof.
  induction a as [| c a IH]; [reflexivity |]. cbn. intros H.
  apply andb_prop in H. destruct H as [Hc Ha].
  apply negb_true_iff in Hc. rewrite Hc, (IH Ha). reflexivity.
Qed.

(** *** Remarks *)

Lemma remark_prims_filter fs ta h logs : forall y,
  remark_prims fs ta h logs y = remark_prims fs ta h (filter has_remark logs) y.
Proof.
  induction logs as [| log logs IH]; intros y; [reflexivity |].
  cbn [remark_prims filter]. unfold has_remark at 1.
  destruct (str_truthy (remarks log)) eqn:E; cbn [andb remark_prims].
  - rewrite E. cbn [andb]. destruct (lt y (of_Z h - Fin 30)); now rewrite IH.
  - apply IH.
Qed.

Lemma remark_prims_full logs :
  remark_prims "#000" "left" 600 logs (Fin (remark_y 4)) = [].
Proof.
  induction logs as [| log logs IH]; [reflexivity |].
  cbn [remark_prims].
  replace (lt (Fin (remark_y 4)) (of_Z 600 - Fin 30)) with false by reflexivity.
  rewrite andb_false_r. exact IH.
Qed.

Lemma remark_prims_lines logs : forall i,
  (i <= 4)%nat ->
  forallb has_remark logs = true ->
  remark_prims "#000" "left" 600 logs (Fin (remark_y i))
  = lines_from i (firstn (4 - i) logs).
Proof.
  induction logs as [| log logs IH]; intros i Hi Hall.
  - now rewrite firstn_nil.
  - cbn [forallb] in Hall. apply andb_prop in Hall. destruct Hall as [Hr Hall].
    unfold has_remark in Hr.
    destruct (Nat.eq_dec i 4) as [-> | Hne].
    + rewrite remark_prims_full. reflexivity.
    + cbn [remark_prims]. rewrite Hr. cbn [andb].
      assert (lt (Fin (remark_y i)) (of_Z 600 - Fin 30) = true) as ->.
      { destruct i as [| [| [| [| i]]]]; try reflexivity. lia. }
      change (Fin (remark_y i) + Fin 15) with (Fin (remark_y (S i))).
      rewrite (IH (S i)) by (lia || assumption).
      replace (4 - i)%nat with (S (4 - S i)) by lia. reflexivity.
Qed.

Lemma sheet_remarks_lines logs :
  sheet_remarks logs = lines_from 0 (firstn 4 (filter has_remark logs)).
Proof.
  unfold sheet_remarks. rewrite remark_prims_filter.
  change (gridY + gridHeight + Fin 30 + Fin 70) with (Fin (remark_y 0)).
  apply (remark_prims_lines (filter has_remark logs) 0); [lia |].
  apply forallb_forall. intros x Hx. apply filter_In in Hx. apply Hx.
Qed.

(** *** Totals *)


End SheetMore.

Module MapMore.
Import MapView Frame CanvasFacts MapParts ProjectionSpec MapViews SheetParts.

Lemma forEach_lineTo_finite p minLat maxLat minLng maxLng latR lngR W H rest :
  p = mkProjection (Fin minLat) (Fin maxLat) (Fin minLng) (Fin maxLng)
        (Fin (range_or_one latR)) (Fin (range_or_one lngR)) (Fin W) (Fin H) ->
  forall w h fs ss lw fn ta sp bm,
    forEach (finite_route rest)
      (fun c => let '(x, y) := toCanvas p (fst c) (snd c) in lineTo x y)
      (mkCanvas w h (mkCtx fs ss lw fn ta [sp]) bm)
    = mkCanvas w h
        (mkCtx fs ss lw fn ta
           [sp ++ map (projected minLng maxLat (range_or_one lngR) (range_or_one latR) W H)
                    rest])
        bm.
Proof.
  intros ->. induction rest as [| pt rest IH]; intros w h fs ss lw fn ta sp bm.
  - cbn. now rewrite app_nil_r.
  - cbn [finite_route map]. rewrite forEach_cons. cbn [fst snd].
    rewrite ProjectionFacts.toCanvas_finite. cbn [lineTo update_path with_ctx extend].
    fold (finite_route rest). rewrite IH. now rewrite <- app_assoc.
Qed.

Lemma route_path_finite p0 rest W H :
  route_path (find_bounds (finite_route (p0 :: rest)) (Fin W) (Fin H))
    (Fin (fst p0), Fin (snd p0)) (finite_route rest)
  = [map (projected (qmin_from (snd p0) (map snd rest)) (qmax_from (fst p0) (map fst rest))
            (range_or_one (qmax_from (snd p0) (map snd rest) - qmin_from (snd p0) (map snd rest)))
            (range_or_one (qmax_from (fst p0) (map fst rest) - qmin_from (fst p0) (map fst rest)))
            W H)
       (p0 :: rest)].
Proof.
  rewrite ProjectionFacts.find_bounds_finite.
  unfold route_path, run. cbn [fold_left fst snd].
  rewrite ProjectionFacts.toCanvas_finite. cbn [moveTo update_path with_ctx blank default_ctx app].
  erewrite forEach_lineTo_finite by reflexivity. reflexivity.
Qed.

(** *** NaN *)

Lemma math_min_from_nan l : forall lowest, In NaN l -> math_min_from lowest l = NaN.
Proof.
  induction l as [| x l IH]; intros lowest H; [contradiction |].
  destruct H as [-> | H]; [reflexivity |].
  destruct x; cbn; try reflexivity; now apply IH.
Qed.

Lemma math_max_from_nan l : forall highest, In NaN l -> math_max_from highest l = NaN.
Proof.
  induction l as [| x l IH]; intros highest H; [contradiction |].
  destruct H as [-> | H]; [reflexivity |].
  destruct x; cbn; try reflexivity; now apply IH.
Qed.

Lemma sub_nan_r a : a - NaN = NaN.
Proof. now destruct a. Qed.

Lemma div_nan_l a : NaN / a = NaN.
Proof. reflexivity. Qed.

Lemma add_nan_r a : a + NaN = NaN.
Proof. now destruct a. Qed.

Lemma toCanvas_nan route W H lat lng :
  existsb has_nan route = true ->
  exists x y, toCanvas (find_bounds route W H) lat lng = (x, y)
              /\ isFinite x && isFinite y = false.
Proof.
  intros Hnan. apply existsb_exists in Hnan. destruct Hnan as [[a b] [Hin Hab]].
  unfold toCanvas, find_bounds. cbn [minLng maxLat lngRange latRange surface_width surface_height].
  do 2 eexists. split; [reflexivity |].
  assert (a = NaN \/ b = NaN) as [-> | ->].
  { destruct a, b; cbn in Hab; try discriminate; tauto. }
  - assert (math_max (map fst route) = NaN) as ->.
    { apply math_max_from_nan. change NaN with (fst (NaN, b)). now apply in_map. }
    cbn. apply andb_false_r.
  - assert (math_min (map snd route) = NaN) as ->.
    { apply math_min_from_nan. change NaN with (snd (a, NaN)). now apply in_map. }
    rewrite sub_nan_r. reflexivity.
Qed.

Lemma marker_prims_nonfinite p lat lng color label x y :
  toCanvas p lat lng = (x, y) -> isFinite x && isFinite y = false ->
  marker_prims p lat lng color label = [].
Proof.
  intros Hxy Hfin. unfold marker_prims, drawMarker. rewrite Hxy.
  destruct x, y; try discriminate Hfin; reflexivity.
Qed.

Lemma stops_prims_nan route W H stops : forall index,
  existsb has_nan route = true ->
  stops_prims (find_bounds route W H) stops index = [].
Proof.
  induction stops as [| stop stops IH]; intros index Hnan; [reflexivity |].
  cbn [stops_prims]. rewrite IH by assumption. rewrite app_nil_r.
  destruct (stop_drawn stop); [| reflexivity].
  destruct (toCanvas_nan route W H (lat (location stop)) (lng (location stop)) Hnan)
    as [x [y [Hxy Hfin]]].
  now apply (marker_prims_nonfinite _ _ _ _ _ x y).
Qed.

Lemma forEach_lineTo_nan route W H rest c :
  existsb has_nan route = true ->
  forEach rest
    (fun pt => let '(x, y) := toCanvas (find_bounds route W H) (fst pt) (snd pt) in lineTo x y)
    c = c.
Proof.
  intros Hnan. revert c. induction rest as [| pt rest IH]; intros c; [reflexivity |].
  rewrite forEach_cons.
  destruct (toCanvas_nan route W H (fst pt) (snd pt) Hnan) as [x [y [Hxy Hfin]]].
  rewrite Hxy. destruct x, y; try discriminate Hfin; apply IH.
Qed.

Lemma route_path_nan route W H first rest :
  existsb has_nan route = true ->
  route_path (find_bounds route W H) first rest = [].
Proof.
  intros Hnan. unfold route_path, run. cbn [fold_left].
  rewrite forEach_lineTo_nan by assumption.
  destruct (toCanvas_nan route W H (fst first) (snd first) Hnan) as [x [y [Hxy Hfin]]].
  rewrite Hxy. destruct x, y; try discriminate Hfin; reflexivity.
Qed.

(** *** Strokes, and the ends of the ranges *)

Lemma no_stroke_in_marker p lat lng color label :
  forallb (fun q => negb (is_stroke q)) (marker_prims p lat lng color label) = true.
Proof.
  unfold marker_prims, drawMarker. destruct (toCanvas p lat lng) as [x y].
  destruct x, y; reflexivity.
Qed.

Lemma no_stroke_in_stops p stops : forall index,
  forallb (fun q => negb (is_stroke q)) (stops_prims p stops index) = true.
Proof.
  induction stops as [| stop stops IH]; intros index; [reflexivity |].
  cbn [stops_prims]. rewrite forallb_app, IH, andb_true_r.
  destruct (stop_drawn stop); [apply no_stroke_in_marker | reflexivity].
Qed.

Lemma minima_agree m1 m2 l : is_min m1 l -> is_min m2 l -> (m1 == m2)%Q.
Proof. intros [I1 L1] [I2 L2]. apply Qle_antisym; auto. Qed.

Lemma maxima_agree m1 m2 l : is_max m1 l -> is_max m2 l -> (m1 == m2)%Q.
Proof. intros [I1 L1] [I2 L2]. apply Qle_antisym; auto. Qed.

Lemma fit_low lo r S v : (v == lo -> 40 + (v - lo) / r * (S - 2 * 40) == 40)%Q.
Proof.
  intros H. assert (v - lo == 0)%Q as -> by lra. unfold Qdiv. ring.
Qed.

Lemma fit_high lo hi S v :
  (v == hi -> ~ lo == hi ->
   40 + (v - lo) / range_or_one (hi - lo) * (S - 2 * 40) == S - 40)%Q.
Proof.
  intros H Hne. unfold range_or_one.
  destruct (Qeq_bool (hi - lo) 0) eqn:E.
  - apply Qeq_bool_eq in E. exfalso. apply Hne. lra.
  - rewrite H. field. intros H0. apply Hne. lra.
Qed.

Lemma fit_low_inverted hi r S v : (v == hi -> 40 + (hi - v) / r * (S - 2 * 40) == 40)%Q.
Proof.
  intros H. assert (hi - v == 0)%Q as -> by lra. unfold Qdiv. ring.
Qed.

Lemma fit_high_inverted lo hi S v :
  (v == lo -> ~ lo == hi ->
   40 + (hi - v) / range_or_one (hi - lo) * (S - 2 * 40) == S - 40)%Q.
Proof.
  intros H Hne. unfold range_or_one.
  destruct (Qeq_bool (hi - lo) 0) eqn:E.
  - apply Qeq_bool_eq in E. exfalso. apply Hne. lra.
  - rewrite H. field. intros H0. apply Hne. lra.
Qed.

Lemma stops_prims_app p l1 l2 : forall index,
  stops_prims p (l1 ++ l2) index
  = stops_prims p l1 index ++ stops_prims p l2 (index + List.length l1).
Proof.
  induction l1 as [| stop l1 IH]; intros index.
  - cbn. now rewrite Nat.add_0_r.
  - cbn [app stops_prims List.length]. rewrite IH, <- app_assoc.
    now replace (S index + List.length l1)%nat with (index + S (List.length l1))%nat by lia.
Qed.

End MapMore.

Import App AppViews SheetViews MapViews.

(** ** The state of the application *)

(** X1.  However [createTrip] settles, and whether or not the locations
    are set, the state left by [calculateTrip] is not calculating any more,
    and its three locations and cycle hours are those it started from. *)
Theorem calculateTrip_always_stops_calculating :
  forall (createTrip : TripRequest -> settled) (state : AppState),
    isCalculating (dispatch_all (dispatched (calculateTrip createTrip state)) state) = false
    /\ currentLocation (dispatch_all (dispatched (calculateTrip createTrip state)) state)
       = currentLocation state
    /\ pickupLocation (dispatch_all (dispatched (calculateTrip createTrip state)) state)
       = pickupLocation state
    /\ dropoffLocation (dispatch_all (dispatched (calculateTrip createTrip state)) state)
       = dropoffLocation state
    /\ currentCycleHours (dispatch_all (dispatched (calculateTrip createTrip state)) state)
       = currentCycleHours state.
Proof.
  intros createTrip [[c |] [p |] [d |] hours trip calc err]; unfold calculateTrip; cbn;
    try (destruct (createTrip _)); repeat split.
Qed.

(** X2.  When one of the three locations is not set, [calculateTrip] sends
    no request; it reports the fixed message and keeps the trip on display. *)
Theorem calculateTrip_without_a_location :
  forall (createTrip : TripRequest -> settled) (state : AppState),
    currentLocation state = None \/ pickupLocation state = None
    \/ dropoffLocation state = None ->
    requests (calculateTrip createTrip state) = []
    /\ error (dispatch_all (dispatched (calculateTrip createTrip state)) state)
       = Some "Please set all location coordinates before calculating trip"%string
    /\ tripData (dispatch_all (dispatched (calculateTrip createTrip state)) state)
       = tripData state.
Proof.
  intros createTrip [[c |] [p |] [d |] hours trip calc err] H; cbn in H;
    try (repeat split; fail).
  destruct H as [H | [H | H]]; discriminate H.
Qed.

Lemma calculateTrip_without_a_location_witness :
  requests (calculateTrip (fun _ => RejectedOther) initial_state) = []
  /\ error (dispatch_all (dispatched (calculateTrip (fun _ => RejectedOther) initial_state))
              initial_state)
     = Some "Please set all location coordinates before calculating trip"%string
  /\ tripData (dispatch_all (dispatched (calculateTrip (fun _ => RejectedOther) initial_state))
                 initial_state)
     = tripData initial_state.
Proof.
  apply (calculateTrip_without_a_location (fun _ => RejectedOther) initial_state).
  left. reflexivity.
Defined.

(** X3.  With the three locations set, [calculateTrip] sends one request,
    made of these locations and of the cycle hours.  A trip that comes back
    replaces the one on display and no error is left; a failure keeps the
    trip on display and reports the message of the error, or the fixed
    message when what was thrown is no [Error]. *)
Theorem calculateTrip_outcome :
  forall (createTrip : TripRequest -> settled) (state : AppState)
         (current pickup dropoff : LocationCoordinate),
    currentLocation state = Some current ->
    pickupLocation state = Some pickup ->
    dropoffLocation state = Some dropoff ->
    requests (calculateTrip createTrip state)
    = [mkTripRequest current pickup dropoff (currentCycleHours state)]
    /\ match createTrip (mkTripRequest current pickup dropoff (currentCycleHours state)) with
       | Resolved tripResponse =>
           tripData (dispatch_all (dispatched (calculateTrip createTrip state)) state)
           = Some tripResponse
           /\ error (dispatch_all (dispatched (calculateTrip createTrip state)) state) = None
       | RejectedError message =>
           tripData (dispatch_all (dispatched (calculateTrip createTrip state)) state)
           = tripData state
           /\ error (dispatch_all (dispatched (calculateTrip createTrip state)) state)
              = Some message
       | RejectedOther =>
           tripData (dispatch_all (dispatched (calculateTrip createTrip state)) state)
           = tripData state
           /\ error (dispatch_all (dispatched (calculateTrip createTrip state)) state)
              = Some "Failed to calculate trip. Please check your connection and try again."%string
       end.
Proof.
  intros createTrip [cur pick drop hours trip calc err] current pickup dropoff Hc Hp Hd.
  cbn in Hc, Hp, Hd. subst. unfold calculateTrip. cbn.
  destruct (createTrip _); repeat split.
Qed.

(** X4.  Once the three address lookups have answered, in whatever order,
    the request of [calculateTrip] carries the current, pickup and dropoff
    locations they found; the lookups touch neither the trip nor the
    error. *)
Theorem lookups_in_any_order_fill_the_request :
  forall (createTrip : TripRequest -> settled) (state : AppState)
         (current pickup dropoff : LocationCoordinate) (order : list AppAction),
    Permutation order
      (handleSetLocation (Some current) SET_CURRENT_LOCATION
       ++ handleSetLocation (Some pickup) SET_PICKUP_LOCATION
       ++ handleSetLocation (Some dropoff) SET_DROPOFF_LOCATION) ->
    requests (calculateTrip createTrip (dispatch_all order state))
    = [mkTripRequest current pickup dropoff (currentCycleHours state)]
    /\ tripData (dispatch_all order state) = tripData state
    /\ error (dispatch_all order state) = error state.
Proof.
  intros createTrip [cur pick drop hours trip calc err]
    [clat clng] [plat plng] [dlat dlng] order H.
  cbn in H. apply AppFacts.perm3 in H.
  destruct H as [-> | [-> | [-> | [-> | [-> | ->]]]]]; repeat split.
Qed.

(** X5.  The cycle hours typed in the input never become NaN: a text that
    does not parse gives 0, a text that parses to a non-zero number gives
    that number. *)
Theorem cycle_hours_are_never_NaN :
  forall (value : string) (state : AppState),
    currentCycleHours (appReducer state (cycle_hours_changed value)) <> NaN
    /\ (parseFloat value = NaN ->
        currentCycleHours (appReducer state (cycle_hours_changed value)) = Fin 0)
    /\ (truthy (parseFloat value) = true ->
        currentCycleHours (appReducer state (cycle_hours_changed value)) = parseFloat value).
Proof.
  intros value [cur pick drop hours trip calc err]. cbn.
  split; [apply AppFacts.or_else_not_nan |].
  split; [intros ->; reflexivity |].
  intros Ht. unfold or_else. now rewrite Ht.
Qed.

Lemma calculateTrip_outcome_witness :
  requests (calculateTrip (fun _ => RejectedError "timeout") ready_state)
  = [mkTripRequest (mkLocation (Fin 6.5) (Fin 3.4)) (mkLocation (Fin 7.3) (Fin 3.9))
       (mkLocation (Fin 9) (Fin 7.4)) (currentCycleHours ready_state)]
  /\ match (fun _ : TripRequest => RejectedError "timeout")
            (mkTripRequest (mkLocation (Fin 6.5) (Fin 3.4)) (mkLocation (Fin 7.3) (Fin 3.9))
               (mkLocation (Fin 9) (Fin 7.4)) (currentCycleHours ready_state)) with
     | Resolved tripResponse =>
         tripData (dispatch_all
                     (dispatched (calculateTrip (fun _ => RejectedError "timeout") ready_state))
                     ready_state)
         = Some tripResponse
         /\ error (dispatch_all
                     (dispatched (calculateTrip (fun _ => RejectedError "timeout") ready_state))
                     ready_state) = None
     | RejectedError message =>
         tripData (dispatch_all
                     (dispatched (calculateTrip (fun _ => RejectedError "timeout") ready_state))
                     ready_state)
         = tripData ready_state
         /\ error (dispatch_all
                     (dispatched (calculateTrip (fun _ => RejectedError "timeout") ready_state))
                     ready_state)
            = Some message
     | RejectedOther =>
         tripData (dispatch_all
                     (dispatched (calculateTrip (fun _ => RejectedError "timeout") ready_state))
                     ready_state)
         = tripData ready_state
         /\ error (dispatch_all
                     (dispatched (calculateTrip (fun _ => RejectedError "timeout") ready_state))
                     ready_state)
            = Some "Failed to calculate trip. Please check your connection and try again."%string
     end.
Proof.
  apply (calculateTrip_outcome (fun _ => RejectedError "timeout") ready_state
           (mkLocation (Fin 6.5) (Fin 3.4)) (mkLocation (Fin 7.3) (Fin 3.9))
           (mkLocation (Fin 9) (Fin 7.4))); reflexivity.
Defined.

Lemma lookups_in_any_order_fill_the_request_witness :
  requests (calculateTrip (fun _ => RejectedOther)
              (dispatch_all
                 [SET_DROPOFF_LOCATION (mkLocation (Fin 9) (Fin 7.4));
                  SET_CURRENT_LOCATION (mkLocation (Fin 6.5) (Fin 3.4));
                  SET_PICKUP_LOCATION (mkLocation (Fin 7.3) (Fin 3.9))]
                 initial_state))
  = [mkTripRequest (mkLocation (Fin 6.5) (Fin 3.4)) (mkLocation (Fin 7.3) (Fin 3.9))
       (mkLocation (Fin 9) (Fin 7.4)) (currentCycleHours initial_state)]
  /\ tripData (dispatch_all
                 [SET_DROPOFF_LOCATION (mkLocation (Fin 9) (Fin 7.4));
                  SET_CURRENT_LOCATION (mkLocation (Fin 6.5) (Fin 3.4));
                  SET_PICKUP_LOCATION (mkLocation (Fin 7.3) (Fin 3.9))]
                 initial_state) = tripData initial_state
  /\ error (dispatch_all
              [SET_DROPOFF_LOCATION (mkLocation (Fin 9) (Fin 7.4));
               SET_CURRENT_LOCATION (mkLocation (Fin 6.5) (Fin 3.4));
               SET_PICKUP_LOCATION (mkLocation (Fin 7.3) (Fin 3.9))]
              initial_state) = error initial_state.
Proof.
  apply (lookups_in_any_order_fill_the_request (fun _ => RejectedOther) initial_state
           (mkLocation (Fin 6.5) (Fin 3.4)) (mkLocation (Fin 7.3) (Fin 3.9))
           (mkLocation (Fin 9) (Fin 7.4))).
  cbn. eapply perm_trans; [apply perm_swap | apply perm_skip, perm_swap].
Defined.

(** ** The lookups and the log sheet *)

Import ELDLogSheet.

(** X6.  The four duty statuses have four different colours, none of them
    the fallback grey; a string that is no duty status gets the fallback
    grey and is its own label. *)
Theorem status_colours_are_distinct :
  (forall s1 s2 : duty_status_t,
      getDutyStatusColor (status_name s1) = getDutyStatusColor (status_name s2) -> s1 = s2)
  /\ (forall s : duty_status_t, getDutyStatusColor (status_name s) <> "#6b7280"%string)
  /\ (forall status : string,
        (forall s : duty_status_t, status <> status_name s) ->
        getDutyStatusColor status = "#6b7280"%string
        /\ getDutyStatusLabel status = status).
Proof.
  split; [| split].
  - intros [] []; cbn; intros H; try reflexivity; discriminate H.
  - intros []; cbn; discriminate.
  - intros status H. unfold getDutyStatusColor, getDutyStatusLabel.
    destruct (String.eqb_spec status "driving") as [E | _]; [exfalso; exact (H driving E) |].
    destruct (String.eqb_spec status "on_duty") as [E | _]; [exfalso; exact (H on_duty E) |].
    destruct (String.eqb_spec status "off_duty") as [E | _]; [exfalso; exact (H off_duty E) |].
    destruct (String.eqb_spec status "sleeper_berth") as [E | _];
      [exfalso; exact (H sleeper_berth E) |].
    split; reflexivity.
Qed.

(** X7.  The segments of a status are drawn at the height of the row of the
    grid whose label is the label of that status: the label is drawn 3
    below that height, right-aligned at x = 40. *)
Theorem segment_row_carries_the_status_label :
  forall (t : TripResponse) (logDate : string) (c : canvas) (s : duty_status_t),
    exists y : Q,
      row_y s = Fin y
      /\ In (FillText "#000" "10px Arial" "right"
               [Lit (getDutyStatusLabel (status_name s))] 40 (y + 3)%Q)
            (bitmap (ELDLogSheet.render t logDate c)).
Proof.
  intros t logDate c s. rewrite SheetFacts.render_bitmap.
  destruct t as [i [name lic] cur pick drop route stops logs].
  destruct s; eexists; (split; [reflexivity |]); apply in_or_app; left.
  - apply (nth_error_In _ 10). vm_compute. reflexivity.
  - apply (nth_error_In _ 9). vm_compute. reflexivity.
  - apply (nth_error_In _ 7). vm_compute. reflexivity.
  - apply (nth_error_In _ 8). vm_compute. reflexivity.
Qed.

(** X8.  An entry whose two times parse to finite hours draws exactly one
    segment, in the colour of its status, from the position of its start
    to the position of its end at the height of its row, and labels its
    start; the order of the two times is not checked. *)
Theorem entry_with_finite_times_draws_one_segment :
  forall (log : ELDLog) (h0 h1 : Q),
    fractional_hour (start_time log) = Fin h0 ->
    fractional_hour (end_time log) = Fin h1 ->
    exists y : Q,
      row_y (duty_status log) = Fin y
      /\ filter is_stroke (log_prims log)
         = [Stroke (getDutyStatusColor (status_name (duty_status log))) 3
              [[Pt (50 + h0 / 24 * 700) y; Pt (50 + h1 / 24 * 700) y]]]
      /\ In (FillText "#000" "8px Arial" "center" [formatTime (start_time log)]
               (50 + h0 / 24 * 700) (y - 5)%Q)
            (log_prims log).
Proof.
  intros log h0 h1 H0 H1. unfold log_prims, draw_log. cbv zeta.
  rewrite H0, H1, !SheetMore.hour_x_fin.
  generalize (getDutyStatusColor (status_name (duty_status log))) as color.
  intros color.
  destruct (gt (Fin (50 + h1 / 24 * 700) - Fin (50 + h0 / 24 * 700)) (Fin 30));
    destruct (duty_status log); eexists; (split; [reflexivity |]);
    split; try reflexivity; cbn; tauto.
Qed.

Lemma entry_with_finite_times_draws_one_segment_witness :
  exists y : Q,
    row_y (duty_status driving_entry) = Fin y
    /\ filter is_stroke (log_prims driving_entry)
       = [Stroke (getDutyStatusColor (status_name (duty_status driving_entry))) 3
            [[Pt (50 + (480 # 60) / 24 * 700) y; Pt (50 + (630 # 60) / 24 * 700) y]]]
    /\ In (FillText "#000" "8px Arial" "center" [formatTime (start_time driving_entry)]
             (50 + (480 # 60) / 24 * 700) (y - 5)%Q)
          (log_prims driving_entry).
Proof.
  apply (entry_with_finite_times_draws_one_segment driving_entry (480 # 60) (630 # 60));
    reflexivity.
Defined.

(** X9.  A time between 0 and 24 hours is placed between x = 50 and
    x = 750, and the height of a row lies strictly inside the band of that
    row, itself inside the grid. *)
Theorem segments_of_the_day_stay_in_the_grid :
  forall (h : Q) (s : duty_status_t),
    (0 <= h)%Q -> (h <= 24)%Q ->
    exists x y r : Q,
      hour_x (Fin h) = Fin x /\ row_y s = Fin y /\ statusRow s = Fin r
      /\ (50 <= x)%Q /\ (x <= 50 + 700)%Q
      /\ (110 + r * (300 / 4) < y)%Q /\ (y < 110 + (r + 1) * (300 / 4))%Q
      /\ (110 <= 110 + r * (300 / 4))%Q /\ (110 + (r + 1) * (300 / 4) <= 110 + 300)%Q.
Proof.
  intros h s H0 H24. exists (50 + h / 24 * 700)%Q.
  destruct s; do 2 eexists;
    (split; [reflexivity |]); (split; [reflexivity |]); (split; [reflexivity |]);
    repeat match goal with |- _ /\ _ => split end; SheetMore.lra_div.
Qed.

Lemma segments_of_the_day_stay_in_the_grid_witness :
  exists x y r : Q,
    hour_x (Fin (21 # 2)) = Fin x /\ row_y driving = Fin y /\ statusRow driving = Fin r
    /\ (50 <= x)%Q /\ (x <= 50 + 700)%Q
    /\ (110 + r * (300 / 4) < y)%Q /\ (y < 110 + (r + 1) * (300 / 4))%Q
    /\ (110 <= 110 + r * (300 / 4))%Q /\ (110 + (r + 1) * (300 / 4) <= 110 + 300)%Q.
Proof.
  apply (segments_of_the_day_stay_in_the_grid (21 # 2) driving); reflexivity || discriminate.
Defined.

(** X10.  The end of a segment is labelled exactly when the segment is more
    than 30 pixels long, that is when the entry lasts more than 36/35
    hours by its times; otherwise the start label is the only one. *)
Theorem end_label_needs_more_than_30_pixels :
  forall (log : ELDLog) (h0 h1 : Q),
    fractional_hour (start_time log) = Fin h0 ->
    fractional_hour (end_time log) = Fin h1 ->
    ((36 # 35) < h1 - h0 -> List.length (filter is_text (log_prims log)) = 2%nat)
    /\ (h1 - h0 <= (36 # 35) -> List.length (filter is_text (log_prims log)) = 1%nat)%Q.
Proof.
  intros log h0 h1 H0 H1. unfold log_prims, draw_log. cbv zeta.
  rewrite H0, H1, !SheetMore.hour_x_fin.
  generalize (getDutyStatusColor (status_name (duty_status log))) as color.
  intros color.
  change (gt (Fin (50 + h1 / 24 * 700) - Fin (50 + h0 / 24 * 700)) (Fin 30))
    with (match (30 ?= (50 + h1 / 24 * 700) - (50 + h0 / 24 * 700))%Q with
          | Lt => true | _ => false end).
  destruct (30 ?= (50 + h1 / 24 * 700) - (50 + h0 / 24 * 700))%Q eqn:E.
  - apply Qeq_alt in E. split; intros H; [exfalso; SheetMore.lra_div |].
    destruct (duty_status log); reflexivity.
  - apply Qlt_alt in E. split; intros H; [| exfalso; SheetMore.lra_div].
    destruct (duty_status log); reflexivity.
  - apply Qgt_alt in E. split; intros H; [exfalso; SheetMore.lra_div |].
    destruct (duty_status log); reflexivity.
Qed.

Lemma end_label_needs_more_than_30_pixels_witness :
  ((36 # 35) < (630 # 60) - (480 # 60) ->
   List.length (filter is_text (log_prims driving_entry)) = 2%nat)
  /\ ((630 # 60) - (480 # 60) <= (36 # 35) ->
      List.length (filter is_text (log_prims driving_entry)) = 1%nat)%Q.
Proof.
  apply (end_label_needs_more_than_30_pixels driving_entry (480 # 60) (630 # 60));
    reflexivity.
Defined.

(** X11.  Only the first two fields of a time are read: a time with
    seconds is placed where the same time without seconds is. *)
Theorem seconds_are_ignored :
  forall hh mm ss : string,
    colon_free hh = true -> colon_free mm = true ->
    fractional_hour (hh ++ ":" ++ mm ++ ":" ++ ss) = fractional_hour (hh ++ ":" ++ mm)
    /\ fractional_hour (hh ++ ":" ++ mm) = parseFloat hh + parseFloat mm / Fin 60.
Proof.
  intros hh mm ss Hh Hm. unfold fractional_hour.
  change (hh ++ ":" ++ mm ++ ":" ++ ss)%string
    with (hh ++ String ":" (mm ++ String ":" ss))%string.
  change (hh ++ ":" ++ mm)%string with (hh ++ String ":" mm)%string.
  rewrite !SheetMore.split_append by assumption.
  rewrite (SheetMore.split_colon_free mm) by assumption.
  split; reflexivity.
Qed.

Lemma seconds_are_ignored_witness :
  fractional_hour ("08" ++ ":" ++ "30" ++ ":" ++ "45")
  = fractional_hour ("08" ++ ":" ++ "30")
  /\ fractional_hour ("08" ++ ":" ++ "30") = parseFloat "08" + parseFloat "30" / Fin 60.
Proof.
  apply (seconds_are_ignored "08" "30" "45"); reflexivity.
Defined.

(** X12.  The remarks listed are those of the first four entries that have
    one, in input order, at 510, 525, 540 and 555: every line stays above
    [canvas.height - 30], entries without remark take no line. *)
Theorem only_the_first_four_remarks_are_listed :
  forall (t : TripResponse) (logDate : string) (c : canvas),
    bitmap (ELDLogSheet.render t logDate c)
    = sheet_top t logDate
      ++ flat_map log_prims (eld_logs t)
      ++ sheet_totals (compute_totals (eld_logs t))
      ++ lines_from 0 (firstn 4 (filter has_remark (eld_logs t)))
      ++ sheet_footer logDate
    /\ (forall i : nat, (i < 4)%nat ->
          (remark_y i == 510 + 15 * inject_Z (Z.of_nat i))%Q /\ (remark_y i < 600 - 30)%Q).
Proof.
  intros t logDate c. split.
  - rewrite SheetFacts.render_bitmap, SheetMore.sheet_remarks_lines. reflexivity.
  - intros i Hi. destruct i as [| [| [| [| i]]]]; try lia; split; reflexivity.
Qed.



(** X14.  The header shows N/A for an empty driver name and the name
    otherwise; the license number is shown as it is, with no placeholder. *)
Theorem missing_driver_name_shows_a_placeholder :
  forall (t : TripResponse) (logDate : string) (c : canvas),
    In (FillText "#000" "12px Arial" "left"
          [Lit "Driver: ";
           Lit (match full_name (driver_info t) with
                | EmptyString => "N/A"
                | name => name
                end)] 50 60)
       (bitmap (ELDLogSheet.render t logDate c))
    /\ In (FillText "#000" "12px Arial" "left"
             [Lit "License: "; Lit (license_number (driver_info t))] 300 60)
          (bitmap (ELDLogSheet.render t logDate c)).
Proof.
  intros t logDate c. rewrite SheetFacts.render_bitmap.
  destruct t as [i [name lic] cur pick drop route stops logs].
  split; apply in_or_app; left.
  - apply (nth_error_In _ 2). destruct name; vm_compute; reflexivity.
  - apply (nth_error_In _ 3). vm_compute. reflexivity.
Qed.

(** X15.  There are no more sheets than entries, none exactly when there is
    no entry, and every entry's date has its sheet. *)
Theorem no_more_sheets_than_entries :
  forall t : TripResponse,
    (List.length (getUniqueDates (Some t)) <= List.length (eld_logs t))%nat
    /\ (getUniqueDates (Some t) = [] <-> eld_logs t = [])
    /\ (forall log, In log (eld_logs t) -> In (log_date log) (getUniqueDates (Some t))).
Proof.
  intros t. cbn [getUniqueDates].
  split; [| split].
  - rewrite <- (length_map log_date (eld_logs t)).
    apply NoDup_incl_length; [apply UniqueDatesFacts.unique_sorted_nodup |].
    intros d Hd. now apply UniqueDatesFacts.unique_sorted_in.
  - split; intros H.
    + destruct (eld_logs t) as [| log logs]; [reflexivity | exfalso].
      assert (In (log_date log) (unique_sorted (map log_date (log :: logs)))) as Hin
        by (apply UniqueDatesFacts.unique_sorted_in; now left).
      rewrite H in Hin. exact Hin.
    + rewrite H. reflexivity.
  - intros log Hlog. apply UniqueDatesFacts.unique_sorted_in. now apply in_map.
Qed.

(** ** The route map *)

Import MapView.

(** X16.  Without a trip, or for a trip whose route is empty, the map is the
    background and the message at its centre: no marker is drawn, whatever
    the locations and rest stops of the trip. *)
Theorem map_without_route_is_the_placeholder :
  forall (tripData : option TripResponse) (c : canvas),
    (0 < width c)%Z -> (0 < height c)%Z ->
    match tripData with None => True | Some t => route_coordinates t = [] end ->
    bitmap (MapView.render tripData c)
    = [ FillRect "#f8fafc" 0 0 (inject_Z (width c)) (inject_Z (height c));
        FillText "#64748b" "16px sans-serif" "center"
          [Lit "Calculate trip to see route visualization"]
          (inject_Z (width c) / 2) (inject_Z (height c) / 2) ].
Proof.
  intros tripData c Hw Hh Hroute.
  rewrite MapFacts.render_map_bitmap by assumption.
  unfold map_prims, route_prims. destruct tripData as [t |].
  - rewrite Hroute. reflexivity.
  - reflexivity.
Qed.

Lemma map_without_route_is_the_placeholder_witness :
  bitmap (MapView.render None (blank 600 400))
  = [ FillRect "#f8fafc" 0 0 (inject_Z (width (blank 600 400)))
        (inject_Z (height (blank 600 400)));
      FillText "#64748b" "16px sans-serif" "center"
        [Lit "Calculate trip to see route visualization"]
        (inject_Z (width (blank 600 400)) / 2) (inject_Z (height (blank 600 400)) / 2) ].
Proof.
  apply (map_without_route_is_the_placeholder None (blank 600 400)).
  - reflexivity.
  - reflexivity.
  - exact I.
Defined.

(** X17.  A route of at least two finite points is stroked as one polyline
    through the projections of all its points, in route order, right after
    the background; nothing else on the map is stroked. *)
Theorem route_is_one_polyline_through_every_point :
  forall (t : TripResponse) (c : canvas) (p0 p1 : Q * Q) (rest : list (Q * Q)),
    (0 < width c)%Z -> (0 < height c)%Z ->
    route_coordinates t = finite_route (p0 :: p1 :: rest) ->
    exists (minLat maxLat minLng maxLng : Q) (tail : list prim),
      is_min minLat (map fst (p0 :: p1 :: rest))
      /\ is_max maxLat (map fst (p0 :: p1 :: rest))
      /\ is_min minLng (map snd (p0 :: p1 :: rest))
      /\ is_max maxLng (map snd (p0 :: p1 :: rest))
      /\ bitmap (MapView.render (Some t) c)
         = FillRect "#f8fafc" 0 0 (inject_Z (width c)) (inject_Z (height c))
           :: Stroke "#3b82f6" 3
                [map (projected minLng maxLat
                        (range_or_one (maxLng - minLng)) (range_or_one (maxLat - minLat))
                        (inject_Z (width c)) (inject_Z (height c)))
                   (p0 :: p1 :: rest)]
           :: tail
      /\ forallb (fun q => negb (is_stroke q)) tail = true.
Proof.
  intros t c p0 p1 rest Hw Hh Hr.
  exists (qmin_from (fst p0) (map fst (p1 :: rest))),
         (qmax_from (fst p0) (map fst (p1 :: rest))),
         (qmin_from (snd p0) (map snd (p1 :: rest))),
         (qmax_from (snd p0) (map snd (p1 :: rest))).
  eexists.
  split; [apply ProjectionFacts.qmin_is_min |].
  split; [apply ProjectionFacts.qmax_is_max |].
  split; [apply ProjectionFacts.qmin_is_min |].
  split; [apply ProjectionFacts.qmax_is_max |].
  rewrite MapFacts.render_map_bitmap by assumption.
  unfold map_prims, route_prims. rewrite Hr.
  change (finite_route (p0 :: p1 :: rest))
    with ((Fin (fst p0), Fin (snd p0)) :: finite_route (p1 :: rest)) at 1.
  cbv iota zeta beta.
  change ((Fin (fst p0), Fin (snd p0)) :: finite_route (p1 :: rest))
    with (finite_route (p0 :: p1 :: rest)).
  unfold of_Z. rewrite MapMore.route_path_finite.
  split.
  - reflexivity.
  - rewrite !forallb_app, !MapMore.no_stroke_in_marker, MapMore.no_stroke_in_stops.
    reflexivity.
Qed.

Lemma route_is_one_polyline_through_every_point_witness :
  exists (minLat maxLat minLng maxLng : Q) (tail : list prim),
    is_min minLat (map fst [(0, 0); (1, 1)]%Q)
    /\ is_max maxLat (map fst [(0, 0); (1, 1)]%Q)
    /\ is_min minLng (map snd [(0, 0); (1, 1)]%Q)
    /\ is_max maxLng (map snd [(0, 0); (1, 1)]%Q)
    /\ bitmap (MapView.render (Some far_trip) (blank 600 400))
       = FillRect "#f8fafc" 0 0 (inject_Z (width (blank 600 400)))
           (inject_Z (height (blank 600 400)))
         :: Stroke "#3b82f6" 3
              [map (projected minLng maxLat
                      (range_or_one (maxLng - minLng)) (range_or_one (maxLat - minLat))
                      (inject_Z (width (blank 600 400)))
                      (inject_Z (height (blank 600 400))))
                 [(0, 0); (1, 1)]%Q]
         :: tail
    /\ forallb (fun q => negb (is_stroke q)) tail = true.
Proof.
  apply (route_is_one_polyline_through_every_point far_trip (blank 600 400)
           (0, 0)%Q (1, 1)%Q []); reflexivity.
Defined.

(** X18.  A route of a single point draws no line, and its point is
    projected to the padding corner (40, 40). *)
Theorem route_of_one_point_draws_no_line :
  forall (t : TripResponse) (c : canvas) (p0 : Q * Q),
    (0 < width c)%Z -> (0 < height c)%Z ->
    route_coordinates t = finite_route [p0] ->
    forallb (fun q => negb (is_stroke q)) (bitmap (MapView.render (Some t) c)) = true
    /\ exists x y : Q,
         MapView.toCanvas
           (MapView.find_bounds (route_coordinates t) (of_Z (width c)) (of_Z (height c)))
           (Fin (fst p0)) (Fin (snd p0)) = (Fin x, Fin y)
         /\ (x == 40)%Q /\ (y == 40)%Q.
Proof.
  intros t c p0 Hw Hh Hr. split.
  - rewrite MapFacts.render_map_bitmap by assumption.
    unfold map_prims, route_prims. rewrite Hr.
    change (finite_route [p0]) with ([(Fin (fst p0), Fin (snd p0))]) at 1.
    cbv iota zeta beta.
    change [(Fin (fst p0), Fin (snd p0))] with (finite_route [p0]).
    unfold of_Z. rewrite MapMore.route_path_finite.
    cbn [forallb map stroke_prims traced filter has_line projected is_stroke negb andb].
    rewrite !forallb_app, !MapMore.no_stroke_in_marker, MapMore.no_stroke_in_stops.
    reflexivity.
  - rewrite Hr. unfold of_Z.
    rewrite ProjectionFacts.find_bounds_finite, ProjectionFacts.toCanvas_finite.
    do 2 eexists. split; [reflexivity |].
    cbn [map qmin_from qmax_from]. unfold spec_x, spec_y.
    split; [apply MapMore.fit_low | apply MapMore.fit_low_inverted]; reflexivity.
Qed.

Lemma route_of_one_point_draws_no_line_witness :
  forallb (fun q => negb (is_stroke q))
    (bitmap (MapView.render
               (Some (mkTrip 7 sample_driver origin origin origin
                        (finite_route [(6.5, 3.4)%Q]) [] []))
               (blank 600 400))) = true
  /\ exists x y : Q,
       MapView.toCanvas
         (MapView.find_bounds
            (route_coordinates
               (mkTrip 7 sample_driver origin origin origin
                  (finite_route [(6.5, 3.4)%Q]) [] []))
            (of_Z (width (blank 600 400))) (of_Z (height (blank 600 400))))
         (Fin (fst (6.5, 3.4)%Q)) (Fin (snd (6.5, 3.4)%Q)) = (Fin x, Fin y)
       /\ (x == 40)%Q /\ (y == 40)%Q.
Proof.
  apply (route_of_one_point_draws_no_line
           (mkTrip 7 sample_driver origin origin origin (finite_route [(6.5, 3.4)%Q]) [] [])
           (blank 600 400) (6.5, 3.4)%Q); reflexivity.
Defined.

(** X19.  The projection fits the route to the padded surface: the least
    longitude is sent to x = 40 and the greatest to x = W - 40, the
    greatest latitude to y = 40 and the least to y = H - 40 (the far ends
    when the range is not zero). *)
Theorem route_fills_the_padded_surface :
  forall (pts : list (Q * Q)) (minLat maxLat minLng maxLng W H lat lng : Q),
    is_min minLat (map fst pts) -> is_max maxLat (map fst pts) ->
    is_min minLng (map snd pts) -> is_max maxLng (map snd pts) ->
    exists x y : Q,
      MapView.toCanvas (MapView.find_bounds (finite_route pts) (Fin W) (Fin H))
        (Fin lat) (Fin lng) = (Fin x, Fin y)
      /\ (lng == minLng -> x == 40)%Q
      /\ (lng == maxLng -> ~ minLng == maxLng -> x == W - 40)%Q
      /\ (lat == maxLat -> y == 40)%Q
      /\ (lat == minLat -> ~ minLat == maxLat -> y == H - 40)%Q.
Proof.
  intros [| p pts] minLat maxLat minLng maxLng W H lat lng HminLat HmaxLat HminLng HmaxLng;
    [destruct HminLat as [[] _] |].
  rewrite ProjectionFacts.find_bounds_finite, ProjectionFacts.toCanvas_finite.
  do 2 eexists. split; [reflexivity |].
  pose proof (MapMore.minima_agree _ _ _ HminLat
                (ProjectionFacts.qmin_is_min (fst p) (map fst pts))) as Ea.
  pose proof (MapMore.maxima_agree _ _ _ HmaxLat
                (ProjectionFacts.qmax_is_max (fst p) (map fst pts))) as Eb.
  pose proof (MapMore.minima_agree _ _ _ HminLng
                (ProjectionFacts.qmin_is_min (snd p) (map snd pts))) as Ec.
  pose proof (MapMore.maxima_agree _ _ _ HmaxLng
                (ProjectionFacts.qmax_is_max (snd p) (map snd pts))) as Ed.
  unfold spec_x, spec_y.
  split; [| split; [| split]].
  - intros E. apply MapMore.fit_low. lra.
  - intros E Hne. apply MapMore.fit_high; [lra |]. intros E'. apply Hne. lra.
  - intros E. apply MapMore.fit_low_inverted. lra.
  - intros E Hne. apply MapMore.fit_high_inverted; [lra |]. intros E'. apply Hne. lra.
Qed.

Lemma route_fills_the_padded_surface_witness :
  exists x y : Q,
    MapView.toCanvas
      (MapView.find_bounds (finite_route [(6.5, 3.4); (7.3, 3.9)]%Q) (Fin 600) (Fin 400))
      (Fin 7.3) (Fin 3.9) = (Fin x, Fin y)
    /\ (3.9 == 3.4 -> x == 40)%Q
    /\ (3.9 == 3.9 -> ~ 3.4 == 3.9 -> x == 600 - 40)%Q
    /\ (7.3 == 7.3 -> y == 40)%Q
    /\ (7.3 == 6.5 -> ~ 6.5 == 7.3 -> y == 400 - 40)%Q.
Proof.
  apply (route_fills_the_padded_surface [(6.5, 3.4); (7.3, 3.9)]%Q 6.5 7.3 3.4 3.9 600 400
           7.3 3.9).
  - split; [simpl; tauto | intros x Hx; simpl in Hx; destruct Hx as [<- | [<- | []]]; lra].
  - split; [simpl; tauto | intros x Hx; simpl in Hx; destruct Hx as [<- | [<- | []]]; lra].
  - split; [simpl; tauto | intros x Hx; simpl in Hx; destruct Hx as [<- | [<- | []]]; lra].
  - split; [simpl; tauto | intros x Hx; simpl in Hx; destruct Hx as [<- | [<- | []]]; lra].
Defined.

(** X20.  One NaN among the coordinates of a non-empty route leaves the map
    with its background alone: no polyline, no marker, and no placeholder
    either. *)
Theorem a_NaN_in_the_route_blanks_the_map :
  forall (t : TripResponse) (c : canvas),
    (0 < width c)%Z -> (0 < height c)%Z ->
    route_coordinates t <> [] ->
    existsb has_nan (route_coordinates t) = true ->
    bitmap (MapView.render (Some t) c)
    = [FillRect "#f8fafc" 0 0 (inject_Z (width c)) (inject_Z (height c))].
Proof.
  intros t c Hw Hh Hne Hnan.
  rewrite MapFacts.render_map_bitmap by assumption.
  unfold map_prims, route_prims.
  destruct (route_coordinates t) as [| first rest] eqn:Hr; [congruence |].
  cbv zeta.
  rewrite MapMore.route_path_nan by assumption.
  rewrite MapMore.stops_prims_nan by assumption.
  repeat match goal with
         | |- context [marker_prims ?p ?la ?lo ?col ?lab] =>
             let x := fresh "x" in
             let y := fresh "y" in
             let Hxy := fresh "Hxy" in
             let Hfin := fresh "Hfin" in
             destruct (MapMore.toCanvas_nan (first :: rest) (of_Z (width c))
                         (of_Z (height c)) la lo Hnan) as [x [y [Hxy Hfin]]];
             rewrite (MapMore.marker_prims_nonfinite p la lo col lab x y Hxy Hfin)
         end.
  reflexivity.
Qed.

Lemma a_NaN_in_the_route_blanks_the_map_witness :
  bitmap (MapView.render
            (Some (mkTrip 7 sample_driver origin origin origin
                     [(Fin 0, Fin 0); (NaN, Fin 1)] [equator_stop] []))
            (blank 600 400))
  = [FillRect "#f8fafc" 0 0 (inject_Z (width (blank 600 400)))
       (inject_Z (height (blank 600 400)))].
Proof.
  apply (a_NaN_in_the_route_blanks_the_map
           (mkTrip 7 sample_driver origin origin origin
              [(Fin 0, Fin 0); (NaN, Fin 1)] [equator_stop] [])
           (blank 600 400)); try reflexivity.
  discriminate.
Defined.

(** X21.  A rest stop with truthy coordinates and a finite position is
    drawn there in purple and labelled S followed by its index in
    [rest_stops] plus 1: the stops skipped before it are counted. *)
Theorem rest_stops_are_numbered_by_their_index :
  forall (t : TripResponse) (c : canvas) (first : num * num) (rest : list (num * num))
         (before after : list RestStop) (stop : RestStop) (x y : Q),
    (0 < width c)%Z -> (0 < height c)%Z ->
    route_coordinates t = first :: rest ->
    rest_stops t = before ++ stop :: after ->
    truthy (lat (location stop)) = true -> truthy (lng (location stop)) = true ->
    MapView.toCanvas
      (MapView.find_bounds (route_coordinates t) (of_Z (width c)) (of_Z (height c)))
      (lat (location stop)) (lng (location stop)) = (Fin x, Fin y) ->
    In (Fill "#8b5cf6" [[Arc x y 8 (Rad 0) (PiTimes 2)]])
       (bitmap (MapView.render (Some t) c))
    /\ In (FillText "#1f2937" "bold 12px sans-serif" "center"
             [Lit "S"; NumStr (of_nat (List.length before) + Fin 1)] x (y - 15)%Q)
          (bitmap (MapView.render (Some t) c)).
Proof.
  intros t c first rest before after stop x y Hw Hh Hr Hstops Hlat Hlng Hxy.
  rewrite MapFacts.render_map_bitmap by assumption.
  unfold map_prims, route_prims. rewrite Hr in *. cbv zeta.
  rewrite Hstops, MapMore.stops_prims_app. cbn [stops_prims Nat.add].
  unfold stop_drawn. rewrite Hlat, Hlng. cbn [andb].
  rewrite (MapFacts.marker_prims_finite _ _ _ _ _ x y Hxy).
  split; right; rewrite !in_app_iff; cbn [In]; tauto.
Qed.

Lemma rest_stops_are_numbered_by_their_index_witness :
  In (Fill "#8b5cf6" [[Arc (600 # 2) (400 # 2) 8 (Rad 0) (PiTimes 2)]])
     (bitmap (MapView.render
                (Some (route_trip origin
                         [equator_stop; mkRestStop 2 (mkLocation (Fin (1 # 2)) (Fin (1 # 2)))]))
                (blank 600 400)))
  /\ In (FillText "#1f2937" "bold 12px sans-serif" "center"
           [Lit "S"; NumStr (of_nat (List.length [equator_stop]) + Fin 1)]
           (600 # 2) ((400 # 2) - 15)%Q)
        (bitmap (MapView.render
                   (Some (route_trip origin
                            [equator_stop; mkRestStop 2 (mkLocation (Fin (1 # 2)) (Fin (1 # 2)))]))
                   (blank 600 400))).
Proof.
  apply (rest_stops_are_numbered_by_their_index
           (route_trip origin
              [equator_stop; mkRestStop 2 (mkLocation (Fin (1 # 2)) (Fin (1 # 2)))])
           (blank 600 400) (Fin 0, Fin 0) [(Fin 1, Fin 1)] [equator_stop] []
           (mkRestStop 2 (mkLocation (Fin (1 # 2)) (Fin (1 # 2)))) (600 # 2) (400 # 2));
    reflexivity.
Defined.

(** X22.  On a surface at least 80 wide and 80 high, every point of a
    finite route is projected into the padded area: [40 <= x <= W - 40] and
    [40 <= y <= H - 40]. *)
Theorem route_points_stay_in_the_padded_area :
  forall (pts : list (Q * Q)) (pt : Q * Q) (W H : Q),
    In pt pts -> (2 * 40 <= W)%Q -> (2 * 40 <= H)%Q ->
    exists x y : Q,
      MapView.toCanvas (MapView.find_bounds (finite_route pts) (Fin W) (Fin H))
        (Fin (fst pt)) (Fin (snd pt)) = (Fin x, Fin y)
      /\ (40 <= x)%Q /\ (x <= W - 40)%Q /\ (40 <= y)%Q /\ (y <= H - 40)%Q.
Proof.
  intros [| p pts] pt W H Hin HW HH; [contradiction |].
  rewrite ProjectionFacts.find_bounds_finite, ProjectionFacts.toCanvas_finite.
  do 2 eexists. split; [reflexivity |].
  destruct (ProjectionFacts.qmin_is_min (fst p) (map fst pts)) as [_ La].
  destruct (ProjectionFacts.qmax_is_max (fst p) (map fst pts)) as [_ Lb].
  destruct (ProjectionFacts.qmin_is_min (snd p) (map snd pts)) as [_ Lc].
  destruct (ProjectionFacts.qmax_is_max (snd p) (map snd pts)) as [_ Ld].
  assert (In (fst pt) (map fst (p :: pts))) as Hlat by now apply in_map.
  assert (In (snd pt) (map snd (p :: pts))) as Hlng by now apply in_map.
  pose proof (ProjectionFacts.spec_within
                (qmin_from (snd p) (map snd pts)) (qmax_from (snd p) (map snd pts))
                (snd pt) W (Lc _ Hlng) (Ld _ Hlng) HW) as [Hx0 Hx1].
  pose proof (ProjectionFacts.spec_within_inverted
                (qmin_from (fst p) (map fst pts)) (qmax_from (fst p) (map fst pts))
                (fst pt) H (La _ Hlat) (Lb _ Hlat) HH) as [Hy0 Hy1].
  unfold spec_x, spec_y.
  split; [exact Hx0 | split; [exact Hx1 | split; [exact Hy0 | exact Hy1]]].
Qed.

Lemma route_points_stay_in_the_padded_area_witness :
  exists x y : Q,
    MapView.toCanvas
      (MapView.find_bounds (finite_route [(6.5, 3.4); (7.3, 3.9)]%Q) (Fin 600) (Fin 400))
      (Fin (fst (7.3, 3.9)%Q)) (Fin (snd (7.3, 3.9)%Q)) = (Fin x, Fin y)
    /\ (40 <= x)%Q /\ (x <= 600 - 40)%Q /\ (40 <= y)%Q /\ (y <= 400 - 40)%Q.
Proof.
  apply (route_points_stay_in_the_padded_area [(6.5, 3.4); (7.3, 3.9)]%Q (7.3, 3.9)%Q
           600 400).
  - right. left. reflexivity.
  - discriminate.
  - discriminate.
Defined.
